(** * Verification of guard's Azure resource discovery (util/azure/utils.go)

    The development embeds the Go code of [util/azure/utils.go]: the settings
    constructor [NewDiscoverResourcesSettings], the two fetch phases, the
    orchestration [DiscoverResources] and the correlation engine
    [createOperationsMap].  Go strings are byte strings; Go maps are finite
    maps ([gmap]); a Go panic is an explicit outcome. *)

From stdpp Require Import gmap strings list fin_maps.
From Stdlib Require Import Ascii ZArith Lia.
From Stdlib Require DecimalString DecimalZ.

Local Open Scope Z_scope.
Local Open Scope nat_scope.

(** ** Go runtime outcomes *)

(** A Go function either returns or panics.  The two run-time panics that
    the embedded code can raise are kept apart. *)
Inductive panic : Type :=
  | IndexOutOfRange
  | NilDereference.

Inductive outcome (A : Type) : Type :=
  | Ret (a : A)
  | Panic (p : panic).
Arguments Ret {A} a.
Arguments Panic {A} p.

#[global] Instance outcome_ret : MRet outcome := @Ret.
#[global] Instance outcome_bind : MBind outcome := fun A B k x =>
  match x with
  | Ret a => k a
  | Panic p => Panic p
  end.

(** [l[i]] on a Go slice: a run-time panic when [i] is out of range. *)
Definition index {A : Type} (l : list A) (i : nat) : outcome A :=
  match l !! i with
  | Some a => Ret a
  | None => Panic IndexOutOfRange
  end.

(** [l[len(l)-k]] for [k >= 1]: the index [len(l)-k] is negative, hence out
    of range, when the slice has fewer than [k] elements. *)
Definition indexFromEnd {A : Type} (l : list A) (k : nat) : outcome A :=
  if decide (k <= length l) then index l (length l - k) else Panic IndexOutOfRange.

(** [for _, x := range l { body }] threading the loop state, where the body
    may panic. *)
Fixpoint forRange {A S : Type} (body : S -> A -> outcome S) (l : list A) (s : S)
  : outcome S :=
  match l with
  | [] => Ret s
  | x :: l' => s' ← body s x; forRange body l' s'
  end.

(** ** The Go standard library functions used by the code *)

Definition slash : ascii := "/"%char.

Module GoStrings.

(** [strings.HasPrefix]. *)
Fixpoint HasPrefix (s pre : string) : bool :=
  match pre, s with
  | EmptyString, _ => true
  | String _ _, EmptyString => false
  | String c pre', String d s' => Ascii.eqb c d && HasPrefix s' pre'
  end.

(** [strings.Contains(s, substr)]: [substr] occurs at some offset of [s]. *)
Fixpoint Contains (s substr : string) : bool :=
  HasPrefix s substr ||
  match s with
  | EmptyString => false
  | String _ s' => Contains s' substr
  end.

(** [strings.Split(s, sep)] for a one-byte separator, the only way the
    code calls it ([sep = "/"]): the pieces between the separators, a
    single piece when there is none.  The result is never empty. *)
Fixpoint Split (s : string) (sep : ascii) : list string :=
  match s with
  | EmptyString => [EmptyString]
  | String c s' =>
      if Ascii.eqb c sep then EmptyString :: Split s' sep
      else match Split s' sep with
           | [] => [String c EmptyString]
           | h :: t => String c h :: t
           end
  end.

(** [strings.Join(elems, sep)]. *)
Fixpoint Join (elems : list string) (sep : string) : string :=
  match elems with
  | [] => EmptyString
  | [e] => e
  | e :: rest => e +:+ sep +:+ Join rest sep
  end.

(** Number of occurrences of a byte. *)
Fixpoint Count (s : string) (c : ascii) : nat :=
  match s with
  | EmptyString => 0
  | String d s' => (if Ascii.eqb d c then 1 else 0) + Count s' c
  end.

End GoStrings.

Module GoPath.
Import GoStrings.

(** State of the output buffer of [path.Clean], element by element: the
    elements written so far, most recent first.  A leading run of [".."]
    elements (the part that cannot be backtracked) only occurs for a path
    that is not rooted. *)
Definition cleanStep (rooted : bool) (out : list string) (el : string) : list string :=
  if String.eqb el "" then out                (* empty path element *)
  else if String.eqb el "." then out          (* . element *)
  else if String.eqb el ".." then             (* .. element *)
    match out with
    | top :: below =>
        if String.eqb top ".." then
          (if rooted then out else ".." :: out)
        else below                            (* can backtrack *)
    | [] => if rooted then out else [".."]
    end
  else el :: out.                             (* real path element *)

(** [path.Clean]: the shortest path equivalent to [p] by purely lexical
    processing.  The loop of the Go function consumes one path element per
    round; it is rendered here over the elements between the slashes. *)
Definition Clean (p : string) : string :=
  if String.eqb p "" then "."
  else
    let rooted := HasPrefix p "/" in
    let out := fold_left (cleanStep rooted) (Split p slash) [] in
    let body := Join (rev out) "/" in
    if rooted then "/" +:+ body
    else if String.eqb body "" then "." else body.

(** The same function byte by byte, as the Go loop is written: [r] is the
    index of the next byte to read, [out] the bytes written so far
    ([out.w] is its length) and [dotdot] the index where a [..] must stop
    backtracking.  It serves as a cross-check of [Clean]. *)
Definition byteAt (p : list ascii) (i : nat) : ascii := nth i p "000"%char.

(** [for out.w > dotdot && out.index(out.w) != '/' { out.w-- }] *)
Fixpoint backtrack (fuel : nat) (buf : list ascii) (w dotdot : nat) : nat :=
  match fuel with
  | 0 => w
  | S fuel =>
      if (dotdot <? w) && negb (Ascii.eqb (byteAt buf w) slash)
      then backtrack fuel buf (w - 1) dotdot
      else w
  end.

(** [for ; r < n && path[r] != '/'; r++ { out.append(path[r]) }] *)
Fixpoint copyElement (fuel : nat) (p : list ascii) (r : nat) (out : list ascii)
  : nat * list ascii :=
  match fuel with
  | 0 => (r, out)
  | S fuel =>
      if (r <? length p) && negb (Ascii.eqb (byteAt p r) slash)
      then copyElement fuel p (r + 1) (out ++ [byteAt p r])
      else (r, out)
  end.

Fixpoint cleanLoop (fuel : nat) (p : list ascii) (rooted : bool)
    (r : nat) (out : list ascii) (dotdot : nat) : list ascii :=
  let n := length p in
  match fuel with
  | 0 => out
  | S fuel =>
      if r <? n then
        if Ascii.eqb (byteAt p r) slash then
          cleanLoop fuel p rooted (r + 1) out dotdot
        else if Ascii.eqb (byteAt p r) "." &&
                ((r + 1 =? n) || Ascii.eqb (byteAt p (r + 1)) slash) then
          cleanLoop fuel p rooted (r + 1) out dotdot
        else if Ascii.eqb (byteAt p r) "." && Ascii.eqb (byteAt p (r + 1)) "." &&
                ((r + 2 =? n) || Ascii.eqb (byteAt p (r + 2)) slash) then
          let w := length out in
          if dotdot <? w then
            cleanLoop fuel p rooted (r + 2)
              (take (backtrack (S w) out (w - 1) dotdot) out) dotdot
          else if negb rooted then
            let out := (if 0 <? w then out ++ [slash] else out) ++ ["."; "."]%char in
            cleanLoop fuel p rooted (r + 2) out (length out)
          else cleanLoop fuel p rooted (r + 2) out dotdot
        else
          let w := length out in
          let out := if (rooted && negb (w =? 1)) || (negb rooted && negb (w =? 0))
                     then out ++ [slash] else out in
          let '(r, out) := copyElement (S n) p r out in
          cleanLoop fuel p rooted r out dotdot
      else out
  end.

Definition CleanBytes (path : string) : string :=
  let p := String.list_ascii_of_string path in
  match p with
  | [] => "."
  | first :: _ =>
      let rooted := Ascii.eqb first slash in
      let out := if rooted then cleanLoop (S (length p)) p true 1 [slash] 1
                 else cleanLoop (S (length p)) p false 0 [] 0 in
      if length out =? 0 then "." else String.string_of_list_ascii out
  end.

(** All paths of length [n] over an alphabet. *)
Fixpoint pathsOfLength (alphabet : list ascii) (n : nat) : list string :=
  match n with
  | 0 => [""]
  | S n => c ← alphabet; rest ← pathsOfLength alphabet n; [String c rest]
  end.

(** The buffer that [path.Join] builds before cleaning it: leading empty
    elements are dropped, and once the buffer is non-empty every further
    element is appended after a slash. *)
Definition joinBuf (buf e : string) : string :=
  if negb (String.eqb buf "") || negb (String.eqb e "") then
    (if negb (String.eqb buf "") then buf +:+ "/" else buf) +:+ e
  else buf.

(** [path.Join(elem...)]. *)
Definition Join (elem : list string) : string :=
  let size := foldr (fun e n => String.length e + n) 0 elem in
  if decide (size = 0) then ""
  else Clean (fold_left joinBuf elem "").

End GoPath.

(** ** Data model *)

Import GoStrings.

(** Constants of the package. *)
Definition ManagedClusters : string := "Microsoft.ContainerService/managedClusters".
Definition Fleets : string := "Microsoft.ContainerService/fleets".
Definition ConnectedClusters : string := "Microsoft.Kubernetes/connectedClusters".

(** [fmt.Sprintf(OperationsEndpointFormatARC, x)] and
    [fmt.Sprintf(OperationsEndpointFormatAKS, x)]: both formats are a single
    [%s] verb followed by a fixed text. *)
Definition OperationsEndpointFormatARC (resourceManagerEndpoint : string) : string :=
  resourceManagerEndpoint +:+ "/providers/Microsoft.Kubernetes/operations?api-version=2021-10-01".
Definition OperationsEndpointFormatAKS (resourceManagerEndpoint : string) : string :=
  resourceManagerEndpoint +:+ "/providers/Microsoft.ContainerService/operations?api-version=2018-10-31".

Record Display : Type := {
  Display_Provider : string;
  Display_Resource : string;
  Display_Operation : string;
  Display_Description : string
}.

(** [Operation]: the flag is a [*bool] with [omitempty], [None] is the nil
    pointer left by a response that has no such field (or has [null]). *)
Record Operation : Type := {
  Operation_Name : string;
  Operation_Display : Display;
  Operation_IsDataAction : option bool
}.

Record OperationList : Type := {
  Value : list Operation;
  NextLink : string
}.

(** [AuthorizationActionInfo] with its embedded [AuthorizationEntity]. *)
Record AuthorizationActionInfo : Type := {
  Id : string;
  IsDataAction : bool
}.

Record DataAction : Type := {
  ActionInfo : AuthorizationActionInfo;
  IsNamespacedResource : bool
}.

(** The fields of [metav1.APIResource] and [metav1.APIResourceList] that the
    code reads. *)
Record APIResource : Type := {
  APIResource_Name : string;
  APIResource_Namespaced : bool
}.

Record APIResourceList : Type := {
  GroupVersion : string;
  APIResources : list APIResource
}.

Abbreviation VerbAndActionsMap := (gmap string DataAction).
Abbreviation ResourceAndVerbMap := (gmap string (gmap string DataAction)).
Abbreviation OperationsMap := (gmap string (gmap string (gmap string DataAction))).

Definition NewVerbAndActionsMap : VerbAndActionsMap := ∅.
Definition NewResourceAndVerbMap : ResourceAndVerbMap := ∅.
Definition NewOperationsMap : OperationsMap := ∅.

(** Dereference of a Go pointer. *)
Definition deref {A : Type} (p : option A) : outcome A :=
  match p with
  | Some a => Ret a
  | None => Panic NilDereference
  end.

(** ** The correlation engine *)

(** The three statements that end the innermost loop body:
    the two lazy creations of the intermediate maps and the assignment
    [operationsMap[group][resourceName][verb] = da]. *)
Definition storeAction (operationsMap : OperationsMap)
    (group resourceName verb : string) (da : DataAction) : OperationsMap :=
  let operationsMap :=
    match operationsMap !! group with
    | Some _ => operationsMap
    | None => <[group := NewResourceAndVerbMap]> operationsMap
    end in
  let byResource := default ∅ (operationsMap !! group) in
  let byResource :=
    match byResource !! resourceName with
    | Some _ => byResource
    | None => <[resourceName := NewVerbAndActionsMap]> byResource
    end in
  let byVerb := default ∅ (byResource !! resourceName) in
  <[group := <[resourceName := <[verb := da]> byVerb]> byResource]> operationsMap.

(** Body of [for _, operation := range operationsList]. *)
Definition operationBody (group resourceName actionId : string) (namespaced : bool)
    (operationsMap : OperationsMap) (operation : Operation) : outcome OperationsMap :=
  if Contains (Operation_Name operation) actionId then
    let opNameArr := Split (Operation_Name operation) slash in
    seg2 ← index opNameArr 2;
    if (if decide (group ≠ "v1")
        then bool_decide (group ≠ seg2)
        else bool_decide (resourceName ≠ seg2))
    then Ret operationsMap (* continue *)
    else
      verb ← indexFromEnd opNameArr 1;
      verb ← (if decide (verb = "action")
              then prev ← indexFromEnd opNameArr 2;
                   last ← indexFromEnd opNameArr 1;
                   Ret (GoPath.Join [prev; last])
              else Ret verb);
      let da := {| ActionInfo := {| Id := Operation_Name operation; IsDataAction := true |};
                   IsNamespacedResource := namespaced |} in
      Ret (storeAction operationsMap group resourceName verb da)
  else Ret operationsMap.

(** The match prefix built for one resource of one group. *)
Definition matchPrefix (clusterType group resourceName : string) : string :=
  let actionId := clusterType in
  let actionId := if decide (group ≠ "v1") then GoPath.Join [actionId; group] else actionId in
  GoPath.Join [actionId; resourceName].

(** Body of [for _, apiResource := range resList.APIResources]. *)
Definition resourceBody (operationsList : list Operation) (clusterType group : string)
    (operationsMap : OperationsMap) (apiResource : APIResource) : outcome OperationsMap :=
  if Contains (APIResource_Name apiResource) "/" then Ret operationsMap (* continue *)
  else
    let resourceName := APIResource_Name apiResource in
    let actionId := matchPrefix clusterType group resourceName in
    forRange (operationBody group resourceName actionId (APIResource_Namespaced apiResource))
             operationsList operationsMap.

(** The canonical group label of a group-version string. *)
Definition groupOf (groupVersion : string) : outcome string :=
  if decide (groupVersion ≠ "" ∧ groupVersion ≠ "v1")
  then index (Split groupVersion slash) 0
  else Ret "v1".

(** Body of [for _, resList := range apiResourcesList]; the list holds
    pointers. *)
Definition resListBody (operationsList : list Operation) (clusterType : string)
    (operationsMap : OperationsMap) (resList : option APIResourceList) : outcome OperationsMap :=
  resList ← deref resList;
  if decide (length (APIResources resList) = 0) then Ret operationsMap (* continue *)
  else
    group ← groupOf (GroupVersion resList);
    forRange (resourceBody operationsList clusterType group) (APIResources resList) operationsMap.

Definition createOperationsMap (apiResourcesList : list (option APIResourceList))
    (operationsList : list Operation) (clusterType : string) : outcome OperationsMap :=
  let operationsMap := NewOperationsMap in
  forRange (resListBody operationsList clusterType) apiResourcesList operationsMap.

(** Query of the table by [[group][resource][verb]]. *)
Definition lookup3 (m : OperationsMap) (group resource verb : string) : option DataAction :=
  byResource ← m !! group; byVerb ← byResource !! resource; byVerb !! verb.

(** ** Errors and external collaborators *)

Inductive fmtArg : Type :=
  | ArgS (s : string)
  | ArgD (n : Z).

(** Go [error] values: an error handed back by a collaborator,
    [errors.Wrap(cause, message)] and [errors.Errorf(format, args...)]. *)
Inductive error : Type :=
  | Foreign (message : string)
  | Wrap (cause : error) (message : string)
  | Errorf (format : string) (args : list fmtArg).

(** The fields of [azure.Environment] that the code reads. *)
Record Environment : Type := {
  Environment_Name : string;
  ResourceManagerEndpoint : string;
  ActiveDirectoryEndpoint : string
}.

Record Request : Type := {
  Request_Method : string;
  Request_URL : string;
  Request_Header : gmap string string
}.

Definition Header_Set (key value : string) (req : Request) : Request :=
  {| Request_Method := Request_Method req;
     Request_URL := Request_URL req;
     Request_Header := <[key := value]> (Request_Header req) |}.

Record Response : Type := {
  StatusCode : Z;
  Body : string * option error   (* what [io.ReadAll(resp.Body)] gives *)
}.

Definition StatusOK : Z := 200%Z.

(** Everything outside the package that the code calls: the go-autorest
    environment table, client-go, net/http, the token providers of
    guard's [graph] package, the JSON decoder and the version constants.
    A Go result pair [(v, err)] is a pair whose second component is [None]
    for a nil error. *)
Record Collaborators : Type := {
  Config : Type;
  Clientset : Type;
  azure_PublicCloud : Environment;
  azure_EnvironmentFromName : string -> Environment * option error;
  clientcmd_BuildConfigFromFlags : string -> string -> option Config * option error;
  rest_InClusterConfig : option Config * option error;
  kubernetes_NewForConfig : option Config -> option Clientset * option error;
  ServerPreferredResources : option Clientset -> list (option APIResourceList) * option error;
  http_NewRequest : string -> string -> Request * option error;
  ClientCredentialTokenProvider_Acquire :
    string -> string -> string -> string -> string * option error;
  AKSTokenProvider_Acquire : string -> string -> string * option error;
  DefaultHTTPClient_Do : Request -> Response * option error;
  json_Unmarshal : string -> OperationList * option error;
  Version_Platform : string;
  Version_GoVersion : string;
  Version_Version : string
}.

Record DiscoverResourcesSettings : Type := {
  clusterType : string;
  environment : Environment;
  operationsEndpoint : string;
  aksLoginURL : string;
  kubeconfigFilePath : string;
  tenantID : string;
  clientID : string;
  clientSecret : string
}.

(** The three process-wide histograms; [DiscoverResources] observes two. *)
Inductive Histogram : Type :=
  | discoverResourcesApiServerCallDuration
  | discoverResourcesAzureCallDuration
  | DiscoverResourcesTotalDuration.

Definition unsupportedClusterTypeFormat : string :=
  "Failed to create endpoint for Get Operations call. Cluster type %s is not supported.".

Section Discovery.
Variable W : Collaborators.

Definition NewDiscoverResourcesSettings
    (clusterType environment loginURL kubeconfigFilePath tenantID clientID clientSecret : string)
  : option DiscoverResourcesSettings * option error :=
  let '(env, err) :=
    if decide (environment ≠ "")
    then azure_EnvironmentFromName W environment
    else (azure_PublicCloud W, None) in
  match err with
  | Some err => (None, Some (Wrap err "Failed to parse environment for Azure."))
  | None =>
      let settings (operationsEndpoint : string) :=
        {| clusterType := clusterType;
           environment := env;
           operationsEndpoint := operationsEndpoint;
           aksLoginURL := loginURL;
           kubeconfigFilePath := kubeconfigFilePath;
           tenantID := tenantID;
           clientID := clientID;
           clientSecret := clientSecret |} in
      if decide (clusterType = ConnectedClusters) then
        (Some (settings (OperationsEndpointFormatARC (ResourceManagerEndpoint env))), None)
      else if decide (clusterType = ManagedClusters) then
        (Some (settings (OperationsEndpointFormatAKS (ResourceManagerEndpoint env))), None)
      else if decide (clusterType = Fleets) then
        (Some (settings (OperationsEndpointFormatAKS (ResourceManagerEndpoint env))), None)
      else
        (None, Some (Errorf unsupportedClusterTypeFormat [ArgS clusterType]))
  end.

Definition fetchApiResources (settings : DiscoverResourcesSettings)
  : list (option APIResourceList) * option error :=
  let '(cfg, err) :=
    if decide (kubeconfigFilePath settings ≠ "")
    then clientcmd_BuildConfigFromFlags W "" (kubeconfigFilePath settings)
    else rest_InClusterConfig W in
  match err with
  | Some err => ([], Some (Wrap err "Error building kubeconfig"))
  | None =>
      let '(kubeclientset, err) := kubernetes_NewForConfig W cfg in
      match err with
      | Some err => ([], Some (Wrap err "Error building kubernetes clientset"))
      | None =>
          let '(apiresourcesList, err) := ServerPreferredResources W kubeclientset in
          match err with
          | Some err => ([], Some err)
          | None => (apiresourcesList, None)
          end
      end
  end.

(** Body of the filtering loop that ends [fetchDataActionsList]:
    [*op.IsDataAction] is evaluated first, for every operation. *)
Definition keepDataAction (clusterType : string) (finalOperations : list Operation)
    (op : Operation) : outcome (list Operation) :=
  isDataAction ← deref (Operation_IsDataAction op);
  if isDataAction && Contains (Operation_Name op) clusterType
  then Ret (finalOperations ++ [op])
  else Ret finalOperations.

Definition filterDataActions (clusterType : string) (value : list Operation)
  : outcome (list Operation) :=
  forRange (keepDataAction clusterType) value [].

Definition fetchDataActionsList (settings : DiscoverResourcesSettings)
  : outcome (list Operation * option error) :=
  let '(req, err) := http_NewRequest W "GET" (operationsEndpoint settings) in
  match err with
  | Some err => Ret ([], Some (Wrap err "Failed to create request for Get Operations call."))
  | None =>
      let req := Header_Set "Content-Type" "application/json" req in
      let req := Header_Set "User-Agent"
        ("guard-" +:+ Version_Platform W +:+ "-" +:+ Version_GoVersion W +:+ "-" +:+ Version_Version W)
        req in
      let '(token, err) :=
        if decide (clusterType settings = ConnectedClusters) then
          ClientCredentialTokenProvider_Acquire W (clientID settings) (clientSecret settings)
            (ActiveDirectoryEndpoint (environment settings) +:+ tenantID settings +:+ "/oauth2/v2.0/token")
            (ResourceManagerEndpoint (environment settings) +:+ "/.default")
        else (* AKS and Fleet *)
          AKSTokenProvider_Acquire W (aksLoginURL settings) (tenantID settings) in
      match err with
      | Some err => Ret ([], Some (Wrap err "Error getting authorization headers for Get Operations call."))
      | None =>
          let req := Header_Set "Authorization" ("Bearer " +:+ token) req in
          let '(resp, err) := DefaultHTTPClient_Do W req in
          match err with
          | Some err => Ret ([], Some (Wrap err "Failed to send request for Get Operations call."))
          | None =>
              let '(data, err) := Body resp in
              match err with
              | Some err => Ret ([], Some (Wrap err "Error in reading response body"))
              | None =>
                  if decide (StatusCode resp ≠ StatusOK) then
                    Ret ([], Some (Errorf "Request failed with status code: %d and response: %s"
                                     [ArgD (StatusCode resp); ArgS data]))
                  else
                    let '(operationsList, err) := json_Unmarshal W data in
                    match err with
                    | Some err => Ret ([], Some (Wrap err "Failed to decode response"))
                    | None =>
                        finalOperations ← filterDataActions (clusterType settings) (Value operationsList);
                        Ret (finalOperations, None)
                    end
              end
          end
      end
  end.

(** [DiscoverResources]: the result pair and the histograms observed, in
    order.  The settings come as a pointer, first dereferenced by
    [fetchApiResources]. *)
Definition DiscoverResources (settings : option DiscoverResourcesSettings)
  : outcome (OperationsMap * option error * list Histogram) :=
  let operationsMap : OperationsMap := ∅ in
  settings ← deref settings;
  let '(apiResourcesList, err) := fetchApiResources settings in
  match err with
  | Some err =>
      Ret (operationsMap, Some (Wrap err "Failed to fetch list of api-resources from apiserver."), [])
  | None =>
      r ← fetchDataActionsList settings;
      let '(operationsList, err) := r in
      match err with
      | Some err =>
          Ret (operationsMap, Some (Wrap err "Failed to fetch operations from Azure."),
               [discoverResourcesApiServerCallDuration])
      | None =>
          operationsMap ← createOperationsMap apiResourcesList operationsList (clusterType settings);
          Ret (operationsMap, None,
               [discoverResourcesApiServerCallDuration; discoverResourcesAzureCallDuration])
      end
  end.

End Discovery.

(** ** Specification-level reading of the innermost loop body *)

(** What one cloud operation identifier contributes for a resource: a panic,
    nothing ([None]: the substring test or the disambiguation fails), or the
    verb under which a record is stored. *)
Definition matchVerb (group resourceName actionId name : string) : outcome (option string) :=
  if Contains name actionId then
    let opNameArr := Split name slash in
    seg2 ← index opNameArr 2;
    if (if decide (group ≠ "v1")
        then bool_decide (group ≠ seg2)
        else bool_decide (resourceName ≠ seg2))
    then Ret None
    else
      verb ← indexFromEnd opNameArr 1;
      verb ← (if decide (verb = "action")
              then prev ← indexFromEnd opNameArr 2;
                   last ← indexFromEnd opNameArr 1;
                   Ret (GoPath.Join [prev; last])
              else Ret verb);
      Ret (Some verb)
  else Ret None.

Definition recordOf (operation : Operation) (namespaced : bool) : DataAction :=
  {| ActionInfo := {| Id := Operation_Name operation; IsDataAction := true |};
     IsNamespacedResource := namespaced |}.

(** Scanned for a resource with the match prefix [actionId], the operation
    is stored under [verb]. *)
Definition yields (group resourceName actionId verb : string) (operation : Operation) : bool :=
  match matchVerb group resourceName actionId (Operation_Name operation) with
  | Ret (Some v) => bool_decide (v = verb)
  | _ => false
  end.

(** The operation maps to the triple [(group, resource, verb)]. *)
Definition mapsTo (clusterType group resourceName verb : string) (operation : Operation) : bool :=
  yields group resourceName (matchPrefix clusterType group resourceName) verb operation.

(** A path element that [path.Clean] keeps as it is. *)
Definition plainElem (e : string) : bool :=
  negb (String.eqb e "") && negb (String.eqb e ".") && negb (String.eqb e "..").

(** A path that is already clean: plain elements separated by single
    slashes, not rooted. *)
Definition cleanPath (p : string) : bool :=
  forallb plainElem (Split p slash).

(** A group-version entry whose canonical group label (when not core) and
    whose top-level resource names are plain path elements. *)
Definition plainResourceList (resList : APIResourceList) : bool :=
  match groupOf (GroupVersion resList) with
  | Ret group => bool_decide (group = "v1") || plainElem group
  | Panic _ => false
  end &&
  forallb (λ res, Contains (APIResource_Name res) "/" || plainElem (APIResource_Name res))
          (APIResources resList).

(** A catalog without nil entries, all of them plain. *)
Definition plainCatalog (apiResourcesList : list (option APIResourceList)) : bool :=
  forallb (λ entry, match entry with
                    | Some resList => plainResourceList resList
                    | None => false
                    end) apiResourcesList.

(** Every record of the table comes from the last operation of the list
    that maps to its triple. *)
Definition lastWins (clusterType : string) (operationsList : list Operation)
    (g r v : string) (da : DataAction) : Prop :=
  ∃ pre op post,
    operationsList = pre ++ op :: post ∧
    mapsTo clusterType g r v op = true ∧
    Id (ActionInfo da) = Operation_Name op ∧
    IsDataAction (ActionInfo da) = true ∧
    Forall (λ later, mapsTo clusterType g r v later = false) post.

(** The endpoint as the specification words it: the ARC template for
    connected clusters, the AKS template for managed clusters and fleets. *)
Definition endpointOf (env : Environment) (clusterType : string) : string :=
  if decide (clusterType = ConnectedClusters)
  then OperationsEndpointFormatARC (ResourceManagerEndpoint env)
  else OperationsEndpointFormatAKS (ResourceManagerEndpoint env).

Definition supported (clusterType : string) : Prop :=
  clusterType = ManagedClusters ∨ clusterType = Fleets ∨ clusterType = ConnectedClusters.

Definition fetchApiResourcesFailed : string :=
  "Failed to fetch list of api-resources from apiserver.".
Definition fetchOperationsFailed : string :=
  "Failed to fetch operations from Azure.".

(** ** Concrete inputs used by the examples *)

Definition noDisplay : Display :=
  {| Display_Provider := ""; Display_Resource := "";
     Display_Operation := ""; Display_Description := "" |}.

Definition dataAction (name : string) : Operation :=
  {| Operation_Name := name; Operation_Display := noDisplay;
     Operation_IsDataAction := Some true |}.

Definition coreGroup (resources : list APIResource) : option APIResourceList :=
  Some {| GroupVersion := "v1"; APIResources := resources |}.

Definition namespacedResource (name : string) : APIResource :=
  {| APIResource_Name := name; APIResource_Namespaced := true |}.

Definition eventsCatalog : list (option APIResourceList) :=
  [ coreGroup [namespacedResource "events"];
    Some {| GroupVersion := "events.k8s.io/v1";
            APIResources := [namespacedResource "events"] |} ].

Definition eventsRead : string :=
  "Microsoft.Kubernetes/connectedClusters/events.k8s.io/events/read".

Definition restartAction : string :=
  "Microsoft.Kubernetes/connectedClusters/nodes/restart/action".

Definition podsLog : string := "Microsoft.Kubernetes/connectedClusters/pods/log/read".

Definition podsRead : string := "Microsoft.Kubernetes/connectedClusters/pods/read".
Definition podsExecRead : string := "Microsoft.Kubernetes/connectedClusters/pods/exec/read".


Definition publicCloud : Environment :=
  {| Environment_Name := "AzurePublicCloud";
     ResourceManagerEndpoint := "https://management.azure.com/";
     ActiveDirectoryEndpoint := "https://login.microsoftonline.com/" |}.

Definition noSuchEnvironment : error :=
  Foreign "autorest/azure: There is no cloud environment matching the name".

(** Stand-ins for the collaborators: an environment table that knows the
    public cloud only, a cluster whose in-cluster configuration gives
    [inCluster] and whose discovery gives [catalog], a token endpoint that
    always answers, and an operations endpoint that answers with [status]
    and a body that decodes to [decoded]. *)
Definition stubCollaborators (inCluster : option error)
    (catalog : list (option APIResourceList)) (status : Z) (decoded : OperationList)
  : Collaborators :=
  {| Config := unit;
     Clientset := unit;
     azure_PublicCloud := publicCloud;
     azure_EnvironmentFromName := λ name,
       if decide (name = "AZUREPUBLICCLOUD" ∨ name = "AzurePublicCloud")
       then (publicCloud, None)
       else ({| Environment_Name := ""; ResourceManagerEndpoint := "";
                ActiveDirectoryEndpoint := "" |}, Some noSuchEnvironment);
     clientcmd_BuildConfigFromFlags := λ _ _, (Some (), None);
     rest_InClusterConfig :=
       match inCluster with
       | Some err => (None, Some err)
       | None => (Some (), None)
       end;
     kubernetes_NewForConfig := λ _, (Some (), None);
     ServerPreferredResources := λ _, (catalog, None);
     http_NewRequest := λ method url,
       ({| Request_Method := method; Request_URL := url; Request_Header := ∅ |}, None);
     ClientCredentialTokenProvider_Acquire := λ _ _ _ _, ("token", None);
     AKSTokenProvider_Acquire := λ _ _, ("token", None);
     DefaultHTTPClient_Do := λ _, ({| StatusCode := status; Body := ("{}", None) |}, None);
     json_Unmarshal := λ _, (decoded, None);
     Version_Platform := "linux";
     Version_GoVersion := "go";
     Version_Version := "v0" |}.

Definition eventsOperations : OperationList :=
  {| Value := [dataAction eventsRead]; NextLink := "" |}.

Definition noOperations : OperationList := {| Value := []; NextLink := "" |}.

Definition fleetSettings : DiscoverResourcesSettings :=
  {| clusterType := Fleets;
     environment := publicCloud;
     operationsEndpoint :=
       "https://management.azure.com//providers/Microsoft.ContainerService/operations?api-version=2018-10-31";
     aksLoginURL := "https://login";
     kubeconfigFilePath := "";
     tenantID := "tenant";
     clientID := "";
     clientSecret := "" |}.

Definition connectedSettings : DiscoverResourcesSettings :=
  {| clusterType := ConnectedClusters;
     environment := publicCloud;
     operationsEndpoint := OperationsEndpointFormatARC "https://management.azure.com/";
     aksLoginURL := "";
     kubeconfigFilePath := "";
     tenantID := "tenant";
     clientID := "client";
     clientSecret := "secret" |}.

(** An operation record whose [isDataAction] field is absent. *)
Definition unflagged (name : string) : Operation :=
  {| Operation_Name := name; Operation_Display := noDisplay;
     Operation_IsDataAction := None |}.

Definition apiServerDown : error := Foreign "unable to load in-cluster configuration".


(** ** Further definitions used by the coverage properties *)

(** [ConvertIntToString]: [strconv.Itoa], the decimal rendering of the
    number with a leading minus sign for a negative one. *)
Definition ConvertIntToString (number : Z) : string :=
  DecimalString.NilEmpty.string_of_int (Z.to_int number).

(** A non-nil catalog entry without resources. *)
Definition emptyEntry (entry : option APIResourceList) : bool :=
  match entry with
  | Some resList => match APIResources resList with [] => true | _ :: _ => false end
  | None => false
  end.

Definition isSubresource (apiResource : APIResource) : bool :=
  Contains (APIResource_Name apiResource) "/".

(** The entry without its subresource descriptors. *)
Definition dropSubresources (resList : APIResourceList) : APIResourceList :=
  {| GroupVersion := GroupVersion resList;
     APIResources := filter (λ res, negb (isSubresource res)) (APIResources resList) |}.

(** The catalog describes the top-level resource [resourceName] of the
    canonical group [group] with the flag [namespaced]. *)
Definition describes (apiResourcesList : list (option APIResourceList))
    (group resourceName : string) (namespaced : bool) : Prop :=
  ∃ resList apiResource,
    Some resList ∈ apiResourcesList ∧
    apiResource ∈ APIResources resList ∧
    groupOf (GroupVersion resList) = Ret group ∧
    APIResource_Name apiResource = resourceName ∧
    Contains resourceName "/" = false ∧
    APIResource_Namespaced apiResource = namespaced.

(** The operations that the fetch keeps: flagged as data action and named
    after the cluster type. *)
Definition keptByFetch (clusterType : string) (op : Operation) : bool :=
  match Operation_IsDataAction op with
  | Some isDataAction => isDataAction && Contains (Operation_Name op) clusterType
  | None => false
  end.

Definition flagged (op : Operation) : bool :=
  match Operation_IsDataAction op with Some _ => true | None => false end.

(** The collaborators with another JSON decoder. *)
Definition withUnmarshal (W : Collaborators)
    (unmarshal : string → OperationList * option error) : Collaborators :=
  {| Config := Config W;
     Clientset := Clientset W;
     azure_PublicCloud := azure_PublicCloud W;
     azure_EnvironmentFromName := azure_EnvironmentFromName W;
     clientcmd_BuildConfigFromFlags := clientcmd_BuildConfigFromFlags W;
     rest_InClusterConfig := rest_InClusterConfig W;
     kubernetes_NewForConfig := kubernetes_NewForConfig W;
     ServerPreferredResources := ServerPreferredResources W;
     http_NewRequest := http_NewRequest W;
     ClientCredentialTokenProvider_Acquire := ClientCredentialTokenProvider_Acquire W;
     AKSTokenProvider_Acquire := AKSTokenProvider_Acquire W;
     DefaultHTTPClient_Do := DefaultHTTPClient_Do W;
     json_Unmarshal := unmarshal;
     Version_Platform := Version_Platform W;
     Version_GoVersion := Version_GoVersion W;
     Version_Version := Version_Version W |}.

(** The collaborators with another HTTP client. *)
Definition withClient (W : Collaborators) (client : Request → Response * option error)
  : Collaborators :=
  {| Config := Config W;
     Clientset := Clientset W;
     azure_PublicCloud := azure_PublicCloud W;
     azure_EnvironmentFromName := azure_EnvironmentFromName W;
     clientcmd_BuildConfigFromFlags := clientcmd_BuildConfigFromFlags W;
     rest_InClusterConfig := rest_InClusterConfig W;
     kubernetes_NewForConfig := kubernetes_NewForConfig W;
     ServerPreferredResources := ServerPreferredResources W;
     http_NewRequest := http_NewRequest W;
     ClientCredentialTokenProvider_Acquire := ClientCredentialTokenProvider_Acquire W;
     AKSTokenProvider_Acquire := AKSTokenProvider_Acquire W;
     DefaultHTTPClient_Do := client;
     json_Unmarshal := json_Unmarshal W;
     Version_Platform := Version_Platform W;
     Version_GoVersion := Version_GoVersion W;
     Version_Version := Version_Version W |}.

(** The bearer token that [fetchDataActionsList] asks for. *)
Definition acquireToken (W : Collaborators) (settings : DiscoverResourcesSettings)
  : string * option error :=
  if decide (clusterType settings = ConnectedClusters) then
    ClientCredentialTokenProvider_Acquire W (clientID settings) (clientSecret settings)
      (ActiveDirectoryEndpoint (environment settings) +:+ tenantID settings +:+ "/oauth2/v2.0/token")
      (ResourceManagerEndpoint (environment settings) +:+ "/.default")
  else
    AKSTokenProvider_Acquire W (aksLoginURL settings) (tenantID settings).

(** A decoder that reports a next page for every body. *)
Definition pagedUnmarshal (W : Collaborators) (data : string) : OperationList * option error :=
  ({| Value := Value (json_Unmarshal W data).1; NextLink := "https://next.example/page2" |},
   (json_Unmarshal W data).2).

(** A client that turns away every request without an [Authorization]
    header. *)
Definition guardedClient (W : Collaborators) (req : Request) : Response * option error :=
  if decide (is_Some (Request_Header req !! "Authorization"))
  then DefaultHTTPClient_Do W req
  else ({| StatusCode := 401%Z; Body := ("", None) |}, None).

(** ** Facts about the Go string functions *)

Section StringFacts.
Import GoPath.

Lemma Split_length s c : length (Split s c) = S (Count s c).
Proof.
  induction s as [|a s IH]; simpl; [done|].
  destruct (Ascii.eqb a c); simpl; [by rewrite IH|].
  destruct (Split s c); simpl in *; lia.
Qed.

Lemma Split_nonempty s c : Split s c ≠ [].
Proof. intros H. pose proof (Split_length s c) as L. rewrite H in L. discriminate. Qed.

Lemma Count_app a b c : Count (a +:+ b) c = Count a c + Count b c.
Proof. induction a as [|d a IH]; simpl; [done|]. rewrite IH. lia. Qed.

Lemma HasPrefix_Count pre : ∀ s c, HasPrefix s pre = true → Count pre c ≤ Count s c.
Proof.
  induction pre as [|x pre IH]; intros [|d s] c H; simpl in *; try lia; try done.
  apply andb_true_iff in H as [Hx Hp]. apply Ascii.eqb_eq in Hx as ->.
  specialize (IH _ c Hp). lia.
Qed.

Lemma Contains_Count s sub c : Contains s sub = true → Count sub c ≤ Count s c.
Proof.
  induction s as [|d s IH]; simpl; intros H.
  - apply orb_true_iff in H as [H|H]; [|done].
    by apply (HasPrefix_Count _ "" c) in H.
  - apply orb_true_iff in H as [H|H].
    + by apply (HasPrefix_Count _ (String d s) c) in H.
    + specialize (IH H). lia.
Qed.

(** An identifier that contains a prefix with two slashes has at least
    three segments. *)
Lemma Contains_segments name actionId :
  Contains name actionId = true → 2 ≤ Count actionId slash →
  3 ≤ length (Split name slash).
Proof.
  intros H Hc. rewrite Split_length.
  pose proof (Contains_Count _ _ slash H). lia.
Qed.

Lemma Split_app_sep a b c :
  Split (a +:+ String c b) c = Split a c ++ Split b c.
Proof.
  induction a as [|d a IH]; simpl.
  - by rewrite Ascii.eqb_refl.
  - destruct (Ascii.eqb d c); [by rewrite IH|].
    rewrite IH. pose proof (Split_nonempty a c). by destruct (Split a c).
Qed.

Lemma Split_no_sep s c : Count s c = 0 → Split s c = [s].
Proof.
  induction s as [|d s IH]; simpl; [done|].
  destruct (Ascii.eqb d c); [done|]. intros H. by rewrite IH.
Qed.

(** The pieces of a split are free of the separator. *)
Lemma Split_elem_Count s c : ∀ e, e ∈ Split s c → Count e c = 0.
Proof.
  induction s as [|d s IH]; simpl; intros e He.
  - by apply list_elem_of_singleton in He as ->.
  - destruct (Ascii.eqb d c) eqn:Ed.
    + apply elem_of_cons in He as [->|He]; [done|by apply IH].
    + pose proof (Split_nonempty s c). destruct (Split s c) as [|h t]; [done|].
      apply elem_of_cons in He as [->|He].
      * simpl. rewrite Ed. apply IH, list_elem_of_here.
      * by apply IH, list_elem_of_further.
Qed.

Lemma Join_Split s : GoStrings.Join (Split s slash) "/" = s.
Proof.
  induction s as [|d s IH]; simpl; [done|].
  pose proof (Split_nonempty s slash).
  destruct (Ascii.eqb d slash) eqn:Ed.
  - apply Ascii.eqb_eq in Ed as ->.
    destruct (Split s slash) as [|h t]; [done|]. by rewrite <-IH.
  - destruct (Split s slash) as [|h [|h' t]]; [done|..]; simpl in *; by rewrite <-IH.
Qed.

Lemma HasPrefix_slash d s : HasPrefix (String d s) "/" = Ascii.eqb slash d.
Proof.
  change (HasPrefix (String d s) "/") with (Ascii.eqb slash d && HasPrefix s "").
  destruct s; apply andb_true_r.
Qed.

Lemma Contains_slash_Count s : Contains s "/" = false → Count s slash = 0.
Proof.
  induction s as [|d s IH]; [done|].
  change (Contains (String d s) "/") with (HasPrefix (String d s) "/" || Contains s "/").
  change (Count (String d s) slash) with ((if Ascii.eqb d slash then 1 else 0) + Count s slash).
  rewrite HasPrefix_slash, Ascii.eqb_sym.
  destruct (Ascii.eqb d slash); simpl; [done|apply IH].
Qed.

Lemma plainElem_spec e : plainElem e = true ↔ e ≠ "" ∧ e ≠ "." ∧ e ≠ "..".
Proof.
  unfold plainElem. rewrite !andb_true_iff, !negb_true_iff, !String.eqb_neq. tauto.
Qed.

Lemma cleanStep_plain rooted out e : plainElem e = true → cleanStep rooted out e = e :: out.
Proof.
  intros (H1&H2&H3)%plainElem_spec. unfold cleanStep.
  apply String.eqb_neq in H1, H2, H3. by rewrite H1, H2, H3.
Qed.

Lemma cleanFold_plain rooted segs : ∀ out,
  forallb plainElem segs = true →
  fold_left (cleanStep rooted) segs out = rev segs ++ out.
Proof.
  induction segs as [|e segs IH]; intros out H; simpl in *; [done|].
  apply andb_true_iff in H as [He Hs].
  rewrite cleanStep_plain, IH by done. by rewrite <-app_assoc.
Qed.

Lemma cleanPath_nonempty p : cleanPath p = true → p ≠ "".
Proof. by intros H ->. Qed.

Lemma cleanPath_not_rooted p : cleanPath p = true → HasPrefix p "/" = false.
Proof.
  unfold cleanPath. destruct p as [|d p]; [done|].
  rewrite HasPrefix_slash, Ascii.eqb_sym.
  change (Split (String d p) slash) with
    (if Ascii.eqb d slash then EmptyString :: Split p slash
     else match Split p slash with
          | [] => [String d EmptyString]
          | h :: t => String d h :: t
          end).
  by destruct (Ascii.eqb d slash).
Qed.

(** [path.Clean] leaves a clean path as it is. *)
Lemma Clean_cleanPath p : cleanPath p = true → Clean p = p.
Proof.
  intros H. unfold Clean.
  pose proof (cleanPath_nonempty _ H) as Hne. apply String.eqb_neq in Hne as Hne'.
  rewrite Hne', (cleanPath_not_rooted _ H), cleanFold_plain by done.
  rewrite app_nil_r, rev_involutive, Join_Split. by rewrite Hne'.
Qed.

(** The element-wise [Clean] and the byte-wise loop agree on every path of at
    most seven bytes over ['/'], ['.'] and a letter. *)
Lemma Clean_CleanBytes_agree :
  forallb (λ n, forallb (λ p, String.eqb (Clean p) (CleanBytes p))
                  (pathsOfLength ["/"; "."; "a"]%char n))
          (seq 0 8) = true.
Proof. vm_compute. reflexivity. Qed.

Lemma joinBuf_first a : a ≠ "" → joinBuf "" a = a.
Proof. intros Ha%String.eqb_neq. unfold joinBuf. simpl. by rewrite Ha. Qed.

Lemma append_assoc a b c : (a +:+ b) +:+ c = a +:+ b +:+ c.
Proof.
  induction a as [|d a IH]; [reflexivity|].
  change (String d ((a +:+ b) +:+ c) = String d (a +:+ b +:+ c)). by f_equal.
Qed.

Lemma joinBuf_next a e : a ≠ "" → joinBuf a e = a +:+ "/" +:+ e.
Proof.
  intros Ha%String.eqb_neq. unfold joinBuf. rewrite Ha. simpl. apply append_assoc.
Qed.

Lemma Join_pair a e : a ≠ "" → GoPath.Join [a; e] = Clean (a +:+ "/" +:+ e).
Proof.
  intros Ha. unfold GoPath.Join. simpl.
  rewrite decide_False by (destruct a; simpl; [done|lia]).
  by rewrite joinBuf_first, joinBuf_next.
Qed.

(** Joining a clean path with a plain element appends the element. *)
Lemma cleanPath_extend a e :
  cleanPath a = true → plainElem e = true → Count e slash = 0 →
  cleanPath (a +:+ "/" +:+ e) = true.
Proof.
  intros Ha He Hc. unfold cleanPath in *.
  change (a +:+ "/" +:+ e) with (a +:+ String slash e).
  rewrite Split_app_sep, (Split_no_sep e) by done.
  rewrite forallb_app, Ha. simpl. by rewrite He.
Qed.

Lemma Join_cleanPath a e :
  cleanPath a = true → plainElem e = true → Count e slash = 0 →
  GoPath.Join [a; e] = a +:+ "/" +:+ e.
Proof.
  intros Ha He Hc. rewrite Join_pair by by apply cleanPath_nonempty.
  by apply Clean_cleanPath, cleanPath_extend.
Qed.

(** The verb of a custom action: the segment before ["action"] followed by
    ["/action"], for every segment but the empty one and ["."]. *)
Lemma Join_action prev :
  Count prev slash = 0 → prev ≠ "" → prev ≠ "." →
  GoPath.Join [prev; "action"] = prev +:+ "/action".
Proof.
  intros Hc H1 H2. destruct (decide (prev = "..")) as [->|H3]; [done|].
  apply Join_cleanPath; [|done..].
  unfold cleanPath. rewrite Split_no_sep by done. simpl.
  rewrite andb_true_r. apply plainElem_spec. done.
Qed.

End StringFacts.

(** ** Facts about the loops and the table *)

Section TableFacts.

Lemma forRange_app {A S : Type} (body : S → A → outcome S) l1 l2 s :
  forRange body (l1 ++ l2) s = (s' ← forRange body l1 s; forRange body l2 s').
Proof.
  revert s. induction l1 as [|x l1 IH]; intros s; simpl; [done|].
  destruct (body s x) as [s1|p]; simpl; [apply IH|done].
Qed.

(** A property of the loop state that every non-panicking round keeps is
    kept by the loop. *)
Lemma forRange_invariant {A S : Type} (P : S → Prop) (body : S → A → outcome S) l :
  (∀ s x s', x ∈ l → P s → body s x = Ret s' → P s') →
  ∀ s s', P s → forRange body l s = Ret s' → P s'.
Proof.
  induction l as [|x l IH]; intros Hbody s s' Hs H; simpl in H.
  - by injection H as <-.
  - destruct (body s x) as [s1|p] eqn:E; simpl in H; [|done].
    apply (IH (λ s0 y s0' Hy, Hbody s0 y s0' (list_elem_of_further _ _ _ Hy)) s1 s');
      [|done].
    apply (Hbody s x s1); [apply list_elem_of_here|done..].
Qed.

(** A loop whose rounds never panic does not panic. *)
Lemma forRange_total {A S : Type} (body : S → A → outcome S) l :
  (∀ s x, x ∈ l → ∃ s', body s x = Ret s') →
  ∀ s, ∃ s', forRange body l s = Ret s'.
Proof.
  induction l as [|x l IH]; intros Hbody s; simpl; [by eexists|].
  destruct (Hbody s x (list_elem_of_here _ _)) as [s1 ->]. simpl.
  apply IH. intros s0 y Hy. apply Hbody. by apply list_elem_of_further.
Qed.

Lemma lookup3_empty g r v : lookup3 ∅ g r v = None.
Proof. unfold lookup3. by rewrite lookup_empty. Qed.

(** The three statements of [storeAction] amount to one nested update. *)
Lemma storeAction_insert (m : OperationsMap) g r v da :
  storeAction m g r v da =
  <[g := <[r := <[v := da]> (default ∅ (default ∅ (m !! g) !! r))]> (default ∅ (m !! g))]> m.
Proof.
  unfold storeAction, NewResourceAndVerbMap, NewVerbAndActionsMap.
  destruct (m !! g) as [rv|] eqn:Eg.
  - rewrite Eg. simpl. destruct (rv !! r) as [va|] eqn:Er.
    + by rewrite Er.
    + rewrite lookup_insert_eq. simpl. by rewrite insert_insert_eq.
  - rewrite lookup_insert_eq. simpl. rewrite lookup_empty, lookup_insert_eq. simpl.
    by rewrite !insert_insert_eq.
Qed.

Lemma lookup3_storeAction (m : OperationsMap) g r v da g' r' v' :
  lookup3 (storeAction m g r v da) g' r' v' =
  if decide (g' = g ∧ r' = r ∧ v' = v) then Some da else lookup3 m g' r' v'.
Proof.
  rewrite storeAction_insert. unfold lookup3.
  destruct (decide (g' = g)) as [->|Hg].
  2: { rewrite decide_False by (by intros (?&?&?)). by rewrite lookup_insert_ne. }
  rewrite lookup_insert_eq. simpl.
  destruct (decide (r' = r)) as [->|Hr].
  2: { rewrite decide_False by (by intros (?&?&?)). rewrite lookup_insert_ne by done.
       destruct (m !! g); simpl; [done|]. by rewrite lookup_empty. }
  rewrite lookup_insert_eq. simpl.
  destruct (decide (v' = v)) as [->|Hv].
  { rewrite decide_True by done. by rewrite lookup_insert_eq. }
  rewrite decide_False by (by intros (?&?&?)). rewrite lookup_insert_ne by done.
  destruct (m !! g) as [rv|]; simpl.
  - destruct (rv !! r); simpl; [done|]. by rewrite lookup_empty.
  - by rewrite !lookup_empty.
Qed.

(** The resource-name keys under a group after a store. *)
Lemma storeAction_keys (m : OperationsMap) g r v da g' r' byResource :
  storeAction m g r v da !! g' = Some byResource → is_Some (byResource !! r') →
  (g' = g ∧ r' = r) ∨ ∃ old, m !! g' = Some old ∧ is_Some (old !! r').
Proof.
  rewrite storeAction_insert.
  destruct (decide (g' = g)) as [->|Hg].
  2: { rewrite lookup_insert_ne by done. eauto. }
  rewrite lookup_insert_eq. intros [= <-].
  destruct (decide (r' = r)) as [->|Hr]; [by left|].
  rewrite lookup_insert_ne by done. intros H. right.
  destruct (m !! g) as [rv|]; simpl in H; [by eauto|].
  rewrite lookup_empty in H. by destruct H.
Qed.

(** The source loop body, read through [matchVerb]. *)
Lemma operationBody_matchVerb group resourceName actionId namespaced m operation :
  operationBody group resourceName actionId namespaced m operation =
  (v ← matchVerb group resourceName actionId (Operation_Name operation);
   Ret (match v with
        | Some verb => storeAction m group resourceName verb (recordOf operation namespaced)
        | None => m
        end)).
Proof.
  unfold operationBody, matchVerb, recordOf.
  destruct (Contains _ _); [|done].
  destruct (index _ 2) as [seg2|]; simpl; [|done].
  destruct (if decide (group ≠ "v1") then _ else _); [done|].
  destruct (indexFromEnd _ 1) as [verb|]; simpl; [|done].
  destruct (decide (verb = "action")); [|done].
  destruct (indexFromEnd _ 2) as [prev|]; simpl; done.
Qed.

(** The table after the scan of the operations list for one resource: at the
    resource's own [(group, name)] every verb holds the record of the last
    operation stored under it; everything else is as before. *)
Lemma scan_lookup group resourceName actionId namespaced operationsList :
  ∀ m0 m, forRange (operationBody group resourceName actionId namespaced) operationsList m0 = Ret m →
  ∀ g r v,
    lookup3 m g r v =
    if decide (g = group ∧ r = resourceName) then
      match last (filter (λ op, yields group resourceName actionId v op) operationsList) with
      | Some op => Some (recordOf op namespaced)
      | None => lookup3 m0 g r v
      end
    else lookup3 m0 g r v.
Proof.
  induction operationsList as [|op ops IH]; intros m0 m H g r v; simpl in H.
  - injection H as <-. rewrite filter_nil. simpl. by case_decide.
  - rewrite operationBody_matchVerb in H.
    destruct (matchVerb _ _ _ _) as [ov|p] eqn:E; simpl in H; [|done].
    assert (yields group resourceName actionId v op =
            match ov with Some verb => bool_decide (verb = v) | None => false end) as Hy
      by (unfold yields; by rewrite E).
    rewrite (IH _ _ H g r v). rewrite filter_cons, Hy. clear Hy.
    destruct ov as [verb|]; [|by destruct (decide (Is_true false)) as [[]|_]].
    rewrite lookup3_storeAction.
    destruct (decide (verb = v)) as [->|Hv].
    + rewrite bool_decide_eq_true_2 by done.
      destruct (decide (Is_true true)) as [_|[]]; [|done]. rewrite last_cons.
      destruct (decide (g = group ∧ r = resourceName)) as [[-> ->]|Hgr].
      * rewrite decide_True by done. by destruct (last _).
      * destruct (decide (g = group ∧ r = resourceName ∧ v = v)) as [(?&?&?)|_]; [tauto|done].
    + rewrite bool_decide_eq_false_2 by done.
      destruct (decide (Is_true false)) as [[]|_].
      destruct (decide (g = group ∧ r = resourceName ∧ v = verb)) as [(?&?&?)|_]; [congruence|done].
Qed.

Lemma createOperationsMap_provenance apiResourcesList operationsList clusterType m :
  createOperationsMap apiResourcesList operationsList clusterType = Ret m →
  ∀ g r v da, lookup3 m g r v = Some da → lastWins clusterType operationsList g r v da.
Proof.
  unfold createOperationsMap, NewOperationsMap.
  apply (forRange_invariant
    (λ m : OperationsMap, ∀ g r v da, lookup3 m g r v = Some da →
       lastWins clusterType operationsList g r v da)).
  2: { intros g r v da H. by rewrite lookup3_empty in H. }
  intros m0 resPtr m1 _ Hm0. unfold resListBody.
  destruct resPtr as [resList|]; simpl; [|done].
  case_decide; [by intros [= <-]|].
  destruct (groupOf _) as [group|]; simpl; [|done].
  revert m0 m1 Hm0.
  apply (forRange_invariant
    (λ m : OperationsMap, ∀ g r v da, lookup3 m g r v = Some da →
       lastWins clusterType operationsList g r v da)).
  intros m0 apiResource m1 _ Hm0. unfold resourceBody.
  destruct (Contains _ "/"); [by intros [= <-]|].
  intros Hscan g r v da. rewrite (scan_lookup _ _ _ _ _ _ _ Hscan g r v).
  case_decide as Hgr; [|by apply Hm0].
  destruct Hgr as [-> ->].
  destruct (last _) as [op|] eqn:Hlast; [|by apply Hm0].
  intros [= <-].
  apply last_filter_Some in Hlast as Hsplit. destruct Hsplit as (pre&post&->&Hpost).
  assert (op ∈ filter (λ op, yields group (APIResource_Name apiResource)
            (matchPrefix clusterType group (APIResource_Name apiResource)) v op)
            (pre ++ op :: post)) as Hop
    by (by apply last_Some_elem_of).
  apply list_elem_of_filter in Hop as [Hop _].
  exists pre, op, post. repeat split; try done.
  - unfold mapsTo. by apply Is_true_true.
  - eapply Forall_impl; [exact Hpost|]. intros later Hl. unfold mapsTo.
    by apply negb_prop_intro, Is_true_true, negb_true_iff in Hl.
Qed.

Lemma index_Ret {A : Type} (l : list A) i a : index l i = Ret a ↔ l !! i = Some a.
Proof. unfold index. destruct (l !! i); split; congruence. Qed.

Lemma indexFromEnd_Ret {A : Type} (l : list A) k a :
  indexFromEnd l k = Ret a ↔ k ≤ length l ∧ l !! (length l - k) = Some a.
Proof.
  unfold indexFromEnd. case_decide; rewrite ?index_Ret; [tauto|].
  split; [done|tauto].
Qed.

(** What a stored verb says about the identifier it was computed from. *)
Lemma matchVerb_Some group resourceName actionId name v :
  matchVerb group resourceName actionId name = Ret (Some v) →
  Contains name actionId = true ∧
  Split name slash !! 2 = Some (if decide (group ≠ "v1") then group else resourceName) ∧
  ∃ lastSeg, last (Split name slash) = Some lastSeg ∧
    if decide (lastSeg = "action")
    then ∃ prev, Split name slash !! (length (Split name slash) - 2) = Some prev ∧
                 v = GoPath.Join [prev; "action"]
    else v = lastSeg.
Proof.
  unfold matchVerb. destruct (Contains name actionId); [|done].
  destruct (index _ 2) as [seg2|] eqn:E2; simpl; [|done].
  apply index_Ret in E2.
  destruct (if decide (group ≠ "v1") then _ else _) eqn:Echeck; [done|].
  destruct (indexFromEnd _ 1) as [verb|] eqn:E1; simpl; [|done].
  apply indexFromEnd_Ret in E1 as [_ E1].
  rewrite last_lookup, <-Nat.sub_1_r.
  intros H. split; [done|]. split.
  { rewrite E2. f_equal.
    destruct (decide (group ≠ "v1")); apply bool_decide_eq_false in Echeck;
      by apply dec_stable in Echeck. }
  exists verb. split; [done|].
  destruct (decide (verb = "action")) as [->|Hverb].
  - destruct (indexFromEnd _ 2) as [prev|] eqn:Ep; simpl in H; [|done].
    apply indexFromEnd_Ret in Ep as [_ Ep].
    simpl in H. injection H as <-. eauto.
  - simpl in H. by injection H as <-.
Qed.

(** A candidate that fails the disambiguation check is skipped. *)
Lemma operationBody_skip group resourceName actionId namespaced m operation seg2 :
  Split (Operation_Name operation) slash !! 2 = Some seg2 →
  seg2 ≠ (if decide (group ≠ "v1") then group else resourceName) →
  operationBody group resourceName actionId namespaced m operation = Ret m.
Proof.
  intros E2 Hne. unfold operationBody.
  destruct (Contains _ _); [|done].
  apply index_Ret in E2. rewrite E2. simpl.
  case_decide; rewrite bool_decide_eq_true_2; done.
Qed.

(** Only resources whose name is free of ['/'] become keys of the table. *)
Lemma createOperationsMap_keys apiResourcesList operationsList clusterType m :
  createOperationsMap apiResourcesList operationsList clusterType = Ret m →
  ∀ g byResource r, m !! g = Some byResource → is_Some (byResource !! r) →
    Contains r "/" = false.
Proof.
  unfold createOperationsMap, NewOperationsMap.
  set (P := λ m : OperationsMap, ∀ g (byResource : ResourceAndVerbMap) r,
         m !! g = Some byResource → is_Some (byResource !! r) → Contains r "/" = false).
  apply (forRange_invariant P).
  2: { intros g byResource r H. by rewrite lookup_empty in H. }
  intros m0 resPtr m1 _ Hm0. unfold resListBody.
  destruct resPtr as [resList|]; simpl; [|done].
  case_decide; [by intros [= <-]|].
  destruct (groupOf _) as [group|]; simpl; [|done].
  revert m0 m1 Hm0. apply (forRange_invariant P).
  intros m0 apiResource m1 _ Hm0. unfold resourceBody.
  destruct (Contains _ "/") eqn:Hname; [by intros [= <-]|].
  revert m0 m1 Hm0. apply (forRange_invariant P).
  intros m0 op m1 _ Hm0. rewrite operationBody_matchVerb.
  destruct (matchVerb _ _ _ _) as [[verb|]|]; simpl; [|by intros [= <-]|done].
  intros [= <-] g byResource r Hg Hr.
  destruct (storeAction_keys _ _ _ _ _ _ _ _ Hg Hr) as [[_ ->]|(old&Hold&Hr')]; [done|].
  by apply (Hm0 g old r).
Qed.

(** With two slashes in the match prefix no index of the loop body is out
    of range. *)
Lemma matchVerb_total group resourceName actionId name :
  2 ≤ Count actionId slash →
  ∃ ov, matchVerb group resourceName actionId name = Ret ov.
Proof.
  intros Hc. unfold matchVerb.
  destruct (Contains name actionId) eqn:Hcontains; [|by eexists].
  pose proof (Contains_segments _ _ Hcontains Hc) as Hlen.
  destruct (lookup_lt_is_Some_2 (Split name slash) 2 ltac:(lia)) as [seg2 E2].
  apply index_Ret in E2. rewrite E2. simpl.
  destruct (if decide (group ≠ "v1") then _ else _); [by eexists|].
  destruct (lookup_lt_is_Some_2 (Split name slash) (length (Split name slash) - 1)
              ltac:(lia)) as [verb E1].
  destruct (lookup_lt_is_Some_2 (Split name slash) (length (Split name slash) - 2)
              ltac:(lia)) as [prev Ep].
  assert (indexFromEnd (Split name slash) 1 = Ret verb) as ->
    by (apply indexFromEnd_Ret; split; [lia|done]).
  assert (indexFromEnd (Split name slash) 2 = Ret prev) as ->
    by (apply indexFromEnd_Ret; split; [lia|done]).
  simpl. case_decide; simpl; by eexists.
Qed.

Lemma groupOf_Count groupVersion group :
  groupOf groupVersion = Ret group → Count group slash = 0.
Proof.
  unfold groupOf. case_decide; [|by intros [= <-]].
  intros Hi%index_Ret. apply (Split_elem_Count groupVersion slash).
  by eapply list_elem_of_lookup_2.
Qed.

(** For a clean cluster type with a slash and plain names the match prefix
    has two slashes or more. *)
Lemma matchPrefix_Count clusterType group resourceName :
  cleanPath clusterType = true → 2 ≤ length (Split clusterType slash) →
  group = "v1" ∨ (plainElem group = true ∧ Count group slash = 0) →
  plainElem resourceName = true → Count resourceName slash = 0 →
  2 ≤ Count (matchPrefix clusterType group resourceName) slash.
Proof.
  intros Hct Hlen Hg Hr Hrc. rewrite Split_length in Hlen. unfold matchPrefix.
  case_decide as Hcore.
  - destruct Hg as [->|[Hg Hgc]]; [done|].
    rewrite (Join_cleanPath clusterType group) by done.
    rewrite Join_cleanPath by (try done; by apply cleanPath_extend).
    rewrite !Count_app. change (Count "/" slash) with 1. lia.
  - rewrite Join_cleanPath by done. rewrite !Count_app.
    change (Count "/" slash) with 1. lia.
Qed.

(** The correlation of a plain catalog runs to completion. *)
Lemma createOperationsMap_total apiResourcesList operationsList clusterType :
  cleanPath clusterType = true → 2 ≤ length (Split clusterType slash) →
  plainCatalog apiResourcesList = true →
  ∃ m, createOperationsMap apiResourcesList operationsList clusterType = Ret m.
Proof.
  intros Hct Hlen Hcat. unfold createOperationsMap.
  apply forRange_total. intros m0 entry Hentry.
  unfold plainCatalog in Hcat. rewrite forallb_forall in Hcat.
  apply list_elem_of_In, Hcat in Hentry.
  destruct entry as [resList|]; [|done].
  unfold resListBody. simpl. case_decide; [by eexists|].
  unfold plainResourceList in Hentry. apply andb_true_iff in Hentry as [Hgroup Hres].
  destruct (groupOf _) as [group|] eqn:Egroup; [|done]. simpl.
  apply forRange_total. intros m1 res Hin.
  rewrite forallb_forall in Hres. apply list_elem_of_In, Hres in Hin.
  unfold resourceBody.
  destruct (Contains _ "/") eqn:Hslash; [by eexists|]. simpl in Hin.
  apply forRange_total. intros m2 op _.
  rewrite operationBody_matchVerb.
  destruct (matchVerb_total group (APIResource_Name res)
              (matchPrefix clusterType group (APIResource_Name res))
              (Operation_Name op)) as [ov ->]; [|by eexists].
  apply matchPrefix_Count; try done.
  - apply orb_true_iff in Hgroup as [->%bool_decide_eq_true|Hg]; [by left|].
    right. split; [done|by eapply groupOf_Count].
  - by apply Contains_slash_Count.
Qed.

End TableFacts.

(** ** The correlation engine: claims *)

(** C1: for the core-group resource [pods] (namespaced) and the single data
    action [Microsoft.Kubernetes/connectedClusters/pods/read], the table built
    for connected clusters holds at [["v1"]["pods"]["read"]] the record with
    the full operation name as action id, [IsDataAction = true] and
    [IsNamespacedResource = true]. *)
Theorem C1_pods_read (display : Display) :
  ∃ m,
    createOperationsMap
      [Some {| GroupVersion := "v1";
               APIResources := [{| APIResource_Name := "pods";
                                   APIResource_Namespaced := true |}] |}]
      [{| Operation_Name := "Microsoft.Kubernetes/connectedClusters/pods/read";
          Operation_Display := display;
          Operation_IsDataAction := Some true |}]
      "Microsoft.Kubernetes/connectedClusters" = Ret m ∧
    lookup3 m "v1" "pods" "read" =
      Some {| ActionInfo :=
                {| Id := "Microsoft.Kubernetes/connectedClusters/pods/read";
                   IsDataAction := true |};
              IsNamespacedResource := true |}.
Proof. eexists. split; vm_compute; reflexivity. Qed.

(** C2: in every table that [createOperationsMap] returns, segment 2 of a
    stored record's identifier is the group for a non-core group and the
    resource name for the core group; so the core-group [events] entry never
    holds the record of
    [Microsoft.Kubernetes/connectedClusters/events.k8s.io/events/read]; and a
    candidate that fails the check leaves the table as it is. *)
Theorem C2_disambiguation apiResourcesList operationsList clusterType m :
  createOperationsMap apiResourcesList operationsList clusterType = Ret m →
  (∀ g r v da, lookup3 m g r v = Some da →
     Split (Id (ActionInfo da)) slash !! 2 = Some (if decide (g ≠ "v1") then g else r)) ∧
  (∀ v da, lookup3 m "v1" "events" v = Some da → Id (ActionInfo da) ≠ eventsRead) ∧
  (∀ group resourceName actionId namespaced m0 operation seg2,
     Split (Operation_Name operation) slash !! 2 = Some seg2 →
     seg2 ≠ (if decide (group ≠ "v1") then group else resourceName) →
     operationBody group resourceName actionId namespaced m0 operation = Ret m0).
Proof.
  intros Hm.
  assert (∀ g r v da, lookup3 m g r v = Some da →
     Split (Id (ActionInfo da)) slash !! 2 = Some (if decide (g ≠ "v1") then g else r)) as Hseg.
  { intros g r v da Hda.
    destruct (createOperationsMap_provenance _ _ _ _ Hm _ _ _ _ Hda)
      as (pre&op&post&_&Hmaps&Hid&_).
    unfold mapsTo, yields in Hmaps.
    destruct (matchVerb _ _ _ _) as [[verb|]|] eqn:E; try done.
    apply matchVerb_Some in E as (_&E&_). by rewrite Hid. }
  split; [done|]. split.
  - intros v da Hda Heq. apply Hseg in Hda. rewrite Heq in Hda.
    vm_compute in Hda. discriminate.
  - intros. by eapply operationBody_skip.
Qed.

(** With the core-group [events] and the [events.k8s.io] [events] resources
    and the operation [.../events.k8s.io/events/read], the table holds the
    record under the named group only. *)
Lemma C2_disambiguation_witness :
  createOperationsMap eventsCatalog [dataAction eventsRead] ConnectedClusters =
    Ret (storeAction ∅ "events.k8s.io" "events" "read" (recordOf (dataAction eventsRead) true)) ∧
  (∀ v da,
     lookup3 (storeAction ∅ "events.k8s.io" "events" "read"
                (recordOf (dataAction eventsRead) true)) "v1" "events" v = Some da →
     Id (ActionInfo da) ≠ eventsRead).
Proof.
  split; [vm_compute; reflexivity|].
  apply (C2_disambiguation eventsCatalog [dataAction eventsRead] ConnectedClusters).
  vm_compute; reflexivity.
Defined.

(** C5: the verb under which a record is stored is the last segment of the
    record's identifier, unless that segment is ["action"]: then it is
    [path.Join] of the second-to-last segment and ["action"], which is that
    segment followed by ["/action"] (for [restart]: ["restart/action"], not
    ["action"]) whenever the segment is neither empty nor ["."]. *)
Theorem C5_verb apiResourcesList operationsList clusterType m g r v da :
  createOperationsMap apiResourcesList operationsList clusterType = Ret m →
  lookup3 m g r v = Some da →
  let segs := Split (Id (ActionInfo da)) slash in
  ∃ lastSeg, last segs = Some lastSeg ∧
    if decide (lastSeg = "action")
    then ∃ prev, segs !! (length segs - 2) = Some prev ∧
                 v = GoPath.Join [prev; "action"] ∧
                 (prev ≠ "" → prev ≠ "." → v = prev +:+ "/action" ∧ v ≠ "action")
    else v = lastSeg.
Proof.
  intros Hm Hda segs.
  destruct (createOperationsMap_provenance _ _ _ _ Hm _ _ _ _ Hda)
    as (pre&op&post&_&Hmaps&Hid&_).
  unfold mapsTo, yields in Hmaps.
  destruct (matchVerb _ _ _ _) as [[verb|]|] eqn:E; try done.
  apply bool_decide_eq_true in Hmaps as ->.
  apply matchVerb_Some in E as (_&_&lastSeg&Hlast&Hverb).
  rewrite <-Hid in Hlast, Hverb. fold segs in Hlast, Hverb.
  exists lastSeg. split; [done|].
  case_decide; [|done].
  destruct Hverb as (prev&Hprev&->). exists prev. repeat split; try done.
  - apply Join_action; [|done..].
    apply (Split_elem_Count (Id (ActionInfo da)) slash).
    by eapply list_elem_of_lookup_2.
  - assert (Count prev slash = 0) as Hc
      by (apply (Split_elem_Count (Id (ActionInfo da)) slash);
          by eapply list_elem_of_lookup_2).
    rewrite Join_action by done. intros Heq.
    assert (Count (prev +:+ "/action") slash = Count "action" slash) as Hcount
      by by rewrite Heq.
    rewrite Count_app, Hc in Hcount. vm_compute in Hcount. discriminate.
Qed.

(** A custom action on the cluster-scoped core resource [nodes]. *)
Lemma C5_verb_witness :
  ∃ lastSeg, last (Split restartAction slash) = Some lastSeg ∧
    if decide (lastSeg = "action")
    then ∃ prev, Split restartAction slash !! (length (Split restartAction slash) - 2) = Some prev ∧
                 "restart/action" = GoPath.Join [prev; "action"] ∧
                 (prev ≠ "" → prev ≠ "." →
                  "restart/action" = prev +:+ "/action" ∧ "restart/action" ≠ "action")
    else "restart/action" = lastSeg.
Proof.
  apply (C5_verb
    [coreGroup [{| APIResource_Name := "nodes"; APIResource_Namespaced := false |}]]
    [dataAction restartAction] ConnectedClusters
    (storeAction ∅ "v1" "nodes" "restart/action" (recordOf (dataAction restartAction) false))
    "v1" "nodes" "restart/action" (recordOf (dataAction restartAction) false));
    vm_compute; reflexivity.
Defined.

(** C8: whatever the input, no resource name that contains ['/'] is a
    resource-name key of the returned table, under any group. *)
Theorem C8_no_subresource_keys apiResourcesList operationsList clusterType m g byResource r :
  createOperationsMap apiResourcesList operationsList clusterType = Ret m →
  m !! g = Some byResource →
  is_Some (byResource !! r) →
  Contains r "/" = false ∧ Count r slash = 0.
Proof.
  intros Hm Hg Hr.
  assert (Contains r "/" = false) as H by by eapply createOperationsMap_keys.
  split; [done|by apply Contains_slash_Count].
Qed.

(** The subresource [pods/log] is skipped although an operation names it;
    the operation is filed under [pods]. *)
Lemma C8_no_subresource_keys_witness :
  Contains "pods" "/" = false ∧ Count "pods" slash = 0.
Proof.
  apply (C8_no_subresource_keys
    [coreGroup [namespacedResource "pods"; namespacedResource "pods/log"]]
    [dataAction podsLog] ConnectedClusters
    (storeAction ∅ "v1" "pods" "read" (recordOf (dataAction podsLog) true))
    "v1" {["pods" := {["read" := recordOf (dataAction podsLog) true]}]} "pods");
    vm_compute; eauto.
Defined.

(** C9: every record of the returned table stems from an operation of the
    list that maps to the record's triple, and no operation after it in the
    list maps to that triple: the later operation wins.  A triple holds one
    record. *)
Theorem C9_last_write_wins apiResourcesList operationsList clusterType m g r v da :
  createOperationsMap apiResourcesList operationsList clusterType = Ret m →
  lookup3 m g r v = Some da →
  (∃ pre op post,
     operationsList = pre ++ op :: post ∧
     mapsTo clusterType g r v op = true ∧
     Id (ActionInfo da) = Operation_Name op ∧
     IsDataAction (ActionInfo da) = true ∧
     Forall (λ later, mapsTo clusterType g r v later = false) post) ∧
  (∀ da', lookup3 m g r v = Some da' → da' = da).
Proof.
  intros Hm Hda. split.
  - by eapply createOperationsMap_provenance.
  - intros da' Hda'. congruence.
Qed.

(** Two operations that both map to [("v1", "pods", "read")]: the table
    holds the record of the second. *)
Lemma C9_last_write_wins_witness :
  (∃ pre op post,
     [dataAction podsRead; dataAction podsExecRead] = pre ++ op :: post ∧
     mapsTo ConnectedClusters "v1" "pods" "read" op = true ∧
     podsExecRead = Operation_Name op ∧
     true = true ∧
     Forall (λ later, mapsTo ConnectedClusters "v1" "pods" "read" later = false) post) ∧
  (∀ da', lookup3 (storeAction ∅ "v1" "pods" "read" (recordOf (dataAction podsExecRead) true))
            "v1" "pods" "read" = Some da' →
          da' = recordOf (dataAction podsExecRead) true).
Proof.
  apply (C9_last_write_wins
    [coreGroup [namespacedResource "pods"]]
    [dataAction podsRead; dataAction podsExecRead] ConnectedClusters
    (storeAction ∅ "v1" "pods" "read" (recordOf (dataAction podsExecRead) true))
    "v1" "pods" "read" (recordOf (dataAction podsExecRead) true));
    vm_compute; reflexivity.
Defined.

(** C4, as the code has it: [createOperationsMap] reads segment 2 without a
    length check.  For a cluster type that is a clean path of two elements
    or more (the three supported types are) and a catalog without nil
    entries whose group labels and top-level resource names are plain path
    elements, every identifier that passes the substring test has three
    segments or more, and the function returns a table for every operations
    list. *)
Theorem C4_in_bounds apiResourcesList operationsList clusterType :
  cleanPath clusterType = true →
  2 ≤ length (Split clusterType slash) →
  plainCatalog apiResourcesList = true →
  (∀ group resourceName name,
     (group = "v1" ∨ (plainElem group = true ∧ Count group slash = 0)) →
     plainElem resourceName = true → Count resourceName slash = 0 →
     Contains name (matchPrefix clusterType group resourceName) = true →
     3 ≤ length (Split name slash)) ∧
  ∃ m, createOperationsMap apiResourcesList operationsList clusterType = Ret m.
Proof.
  intros Hct Hlen Hcat. split.
  - intros group resourceName name Hg Hr Hrc Hcontains.
    eapply Contains_segments; [done|]. by apply matchPrefix_Count.
  - by apply createOperationsMap_total.
Qed.

Lemma C4_in_bounds_witness :
  (∀ group resourceName name,
     (group = "v1" ∨ (plainElem group = true ∧ Count group slash = 0)) →
     plainElem resourceName = true → Count resourceName slash = 0 →
     Contains name (matchPrefix ConnectedClusters group resourceName) = true →
     3 ≤ length (Split name slash)) ∧
  ∃ m, createOperationsMap eventsCatalog
         [dataAction eventsRead; dataAction "Microsoft.Kubernetes/connectedClusters"]
         ConnectedClusters = Ret m.
Proof.
  apply (C4_in_bounds eventsCatalog
           [dataAction eventsRead; dataAction "Microsoft.Kubernetes/connectedClusters"]
           ConnectedClusters); vm_compute; first [reflexivity | lia].
Defined.

(** The three supported cluster types are clean paths of two elements. *)
Lemma supported_cluster_types_clean :
  Forall (λ clusterType, cleanPath clusterType = true ∧ length (Split clusterType slash) = 2)
         [ManagedClusters; Fleets; ConnectedClusters].
Proof. repeat constructor. Qed.

(** C4, as stated, fails: an identifier with two segments that contains the
    match prefix makes the read of segment 2 panic.  First with a cluster
    type without a slash, then with a supported cluster type and a resource
    whose name is empty. *)
Lemma C4_counterexample :
  createOperationsMap [coreGroup [namespacedResource "pods"]]
    [dataAction "aks/pods"] "aks" = Panic IndexOutOfRange ∧
  createOperationsMap [coreGroup [namespacedResource ""]]
    [dataAction "Microsoft.Kubernetes/connectedClusters"] ConnectedClusters
    = Panic IndexOutOfRange.
Proof. split; vm_compute; reflexivity. Qed.

(** ** Settings, fetch phases and orchestration: claims *)

(** C3: a response with an operation whose [isDataAction] is absent makes
    the filtering loop of [fetchDataActionsList] dereference a nil pointer:
    the fetch panics instead of dropping the operation. *)
Theorem C3_absent_flag_panics :
  filterDataActions ConnectedClusters [dataAction podsRead; unflagged podsExecRead]
    = Panic NilDereference ∧
  fetchDataActionsList
    (stubCollaborators None [] 200
       {| Value := [dataAction podsRead; unflagged podsExecRead]; NextLink := "" |})
    connectedSettings = Panic NilDereference.
Proof. split; vm_compute; reflexivity. Qed.

(** The filter panics on every list that has an operation without flag. *)
Lemma filterDataActions_nil clusterType value op :
  op ∈ value → Operation_IsDataAction op = None →
  filterDataActions clusterType value = Panic NilDereference.
Proof.
  unfold filterDataActions. generalize (@nil Operation).
  induction value as [|x value IH]; intros acc Hin Hnil.
  - by apply elem_of_nil in Hin.
  - simpl. destruct (Operation_IsDataAction x) as [flag|] eqn:Ex.
    + assert (∃ acc', keepDataAction clusterType acc x = Ret acc') as [acc' ->]
        by (unfold keepDataAction; rewrite Ex; simpl; destruct (flag && _); by eexists).
      simpl. apply IH; [|done].
      apply elem_of_cons in Hin as [->|Hin]; [congruence|done].
    + assert (keepDataAction clusterType acc x = Panic NilDereference) as ->
        by (unfold keepDataAction; by rewrite Ex).
      done.
Qed.

(** C6, as the code has it: for a cluster type outside the three supported
    values the constructor returns an error and no settings object,
    whatever the other arguments; the error is the unsupported-cluster-type
    error when the environment name is empty or resolves, and the wrapped
    error of the environment lookup otherwise. *)
Theorem C6_unsupported_cluster_type (W : Collaborators)
    (clusterType environment loginURL kubeconfigFilePath tenantID clientID clientSecret : string) :
  ¬ supported clusterType →
  let result := NewDiscoverResourcesSettings W clusterType environment loginURL
                  kubeconfigFilePath tenantID clientID clientSecret in
  result.1 = None ∧
  (∃ err, result.2 = Some err) ∧
  (environment = "" ∨ (azure_EnvironmentFromName W environment).2 = None →
   result.2 = Some (Errorf unsupportedClusterTypeFormat [ArgS clusterType])) ∧
  (∀ err, environment ≠ "" → (azure_EnvironmentFromName W environment).2 = Some err →
   result.2 = Some (Wrap err "Failed to parse environment for Azure.")).
Proof.
  intros Hns. unfold supported in Hns. unfold NewDiscoverResourcesSettings.
  destruct (decide (environment ≠ "")) as [Henv|Henv].
  - destruct (azure_EnvironmentFromName W environment) as [env [err|]] eqn:E; simpl.
    + split; [done|]. split; [by eexists|]. split.
      * by intros [->|?].
      * by intros err' _ [= <-].
    + rewrite !decide_False by tauto. simpl.
      split; [done|]. split; [by eexists|]. split; [done|]. by intros err _ ?.
  - rewrite !decide_False by tauto. simpl.
    split; [done|]. split; [by eexists|]. split; [done|]. by intros err ? _.
Qed.

Lemma C6_unsupported_cluster_type_witness :
  let result := NewDiscoverResourcesSettings (stubCollaborators None [] 200 noOperations)
                  "Microsoft.Compute/virtualMachines" "" "" "" "" "" "" in
  result.1 = None ∧
  (∃ err, result.2 = Some err) ∧
  ("" = "" ∨ (azure_EnvironmentFromName (stubCollaborators None [] 200 noOperations) "").2 = None →
   result.2 = Some (Errorf unsupportedClusterTypeFormat [ArgS "Microsoft.Compute/virtualMachines"])) ∧
  (∀ err, "" ≠ "" → (azure_EnvironmentFromName (stubCollaborators None [] 200 noOperations) "").2 = Some err →
   result.2 = Some (Wrap err "Failed to parse environment for Azure.")).
Proof.
  apply (C6_unsupported_cluster_type
           (stubCollaborators None [] 200 noOperations)
           "Microsoft.Compute/virtualMachines" "" "" "" "" "" "").
  unfold supported. vm_compute. intros [H|[H|H]]; discriminate H.
Defined.

(** C6, as stated, fails: with an environment name that does not resolve the
    error handed back is the wrapped lookup error, not the
    unsupported-cluster-type error. *)
Lemma C6_counterexample :
  ¬ supported "Microsoft.Compute/virtualMachines" ∧
  NewDiscoverResourcesSettings (stubCollaborators None [] 200 noOperations)
    "Microsoft.Compute/virtualMachines" "NoSuchCloud" "" "" "" "" ""
  = (None, Some (Wrap noSuchEnvironment "Failed to parse environment for Azure.")) ∧
  Wrap noSuchEnvironment "Failed to parse environment for Azure."
  ≠ Errorf unsupportedClusterTypeFormat [ArgS "Microsoft.Compute/virtualMachines"].
Proof.
  split; [|split; [vm_compute; reflexivity|discriminate]].
  unfold supported. vm_compute. intros [H|[H|H]]; discriminate H.
Qed.

(** C7: a settings object that the constructor hands back carries the
    endpoint determined by the resolved environment and the cluster type
    alone: the ARC template for connected clusters, the AKS template for
    managed clusters and fleets, both filled with the resource-manager
    endpoint of the resolved environment. *)
Theorem C7_endpoint (W : Collaborators)
    (clusterType' environment' loginURL kubeconfigFilePath' tenantID' clientID' clientSecret' : string)
    (settings : DiscoverResourcesSettings) :
  (NewDiscoverResourcesSettings W clusterType' environment' loginURL
     kubeconfigFilePath' tenantID' clientID' clientSecret').1 = Some settings →
  supported clusterType' ∧
  clusterType settings = clusterType' ∧
  environment settings =
    (if decide (environment' ≠ "")
     then (azure_EnvironmentFromName W environment').1
     else azure_PublicCloud W) ∧
  operationsEndpoint settings = endpointOf (environment settings) clusterType' ∧
  (clusterType' = ConnectedClusters →
   operationsEndpoint settings =
     ResourceManagerEndpoint (environment settings)
     +:+ "/providers/Microsoft.Kubernetes/operations?api-version=2021-10-01") ∧
  (clusterType' = ManagedClusters ∨ clusterType' = Fleets →
   operationsEndpoint settings =
     ResourceManagerEndpoint (environment settings)
     +:+ "/providers/Microsoft.ContainerService/operations?api-version=2018-10-31").
Proof.
  unfold NewDiscoverResourcesSettings, supported, endpointOf.
  set (resolved := if decide (environment' ≠ "") then azure_EnvironmentFromName W environment'
                   else (azure_PublicCloud W, None)).
  assert ((if decide (environment' ≠ "")
           then (azure_EnvironmentFromName W environment').1
           else azure_PublicCloud W) = resolved.1) as ->
    by (unfold resolved; by case_decide).
  destruct resolved as [env [err|]]; simpl; [done|].
  destruct (decide (clusterType' = ConnectedClusters)) as [->|Hc].
  { intros [= <-]. simpl. repeat split; try done; [tauto|]. by intros [?|?]. }
  destruct (decide (clusterType' = ManagedClusters)) as [->|Hm].
  { intros [= <-]. simpl. repeat split; try done; tauto. }
  destruct (decide (clusterType' = Fleets)) as [->|Hf]; [|done].
  intros [= <-]. simpl. repeat split; try done; tauto.
Qed.

Lemma C7_endpoint_witness :
  supported Fleets ∧
  clusterType fleetSettings = Fleets ∧
  environment fleetSettings =
    (if decide ("AZUREPUBLICCLOUD" ≠ "")
     then (azure_EnvironmentFromName (stubCollaborators None [] 200 noOperations)
             "AZUREPUBLICCLOUD").1
     else azure_PublicCloud (stubCollaborators None [] 200 noOperations)) ∧
  operationsEndpoint fleetSettings = endpointOf (environment fleetSettings) Fleets ∧
  (Fleets = ConnectedClusters →
   operationsEndpoint fleetSettings =
     ResourceManagerEndpoint (environment fleetSettings)
     +:+ "/providers/Microsoft.Kubernetes/operations?api-version=2021-10-01") ∧
  (Fleets = ManagedClusters ∨ Fleets = Fleets →
   operationsEndpoint fleetSettings =
     ResourceManagerEndpoint (environment fleetSettings)
     +:+ "/providers/Microsoft.ContainerService/operations?api-version=2018-10-31").
Proof.
  apply (C7_endpoint (stubCollaborators None [] 200 noOperations)
           Fleets "AZUREPUBLICCLOUD" "https://login" "" "tenant" "" "" fleetSettings).
  vm_compute. reflexivity.
Defined.

(** C10: when a fetch phase returns an error, [DiscoverResources] returns
    the empty table together with that error, wrapped; nothing of the
    correlation is in the table. *)
Theorem C10_error_path (W : Collaborators) (settings : DiscoverResourcesSettings) (err : error) :
  (fetchApiResources W settings).2 = Some err ∨
  ((fetchApiResources W settings).2 = None ∧
   ∃ operationsList, fetchDataActionsList W settings = Ret (operationsList, Some err)) →
  ∃ m message observed,
    DiscoverResources W (Some settings) = Ret (m, Some (Wrap err message), observed) ∧
    m = ∅ ∧ (∀ g r v, lookup3 m g r v = None) ∧
    message = (if decide ((fetchApiResources W settings).2 = None)
               then fetchOperationsFailed else fetchApiResourcesFailed).
Proof.
  unfold DiscoverResources. simpl.
  destruct (fetchApiResources W settings) as [apiResourcesList [e|]]; simpl.
  - intros [[= ->]|[? _]]; [|done].
    eexists _, _, _. split; [done|]. split; [done|]. split; [apply lookup3_empty|done].
  - intros [?|[_ [operationsList ->]]]; [done|]. simpl.
    eexists _, _, _. split; [done|]. split; [done|]. split; [apply lookup3_empty|done].
Qed.

Lemma C10_error_path_witness :
  (∃ m message observed,
    DiscoverResources (stubCollaborators (Some apiServerDown) eventsCatalog 200 eventsOperations)
      (Some connectedSettings)
      = Ret (m, Some (Wrap (Wrap apiServerDown "Error building kubeconfig") message), observed) ∧
    m = ∅ ∧ (∀ g r v, lookup3 m g r v = None) ∧
    message = (if decide ((fetchApiResources
                             (stubCollaborators (Some apiServerDown) eventsCatalog 200
                                eventsOperations)
                             connectedSettings).2 = None)
               then fetchOperationsFailed else fetchApiResourcesFailed)) ∧
  (∃ m message observed,
    DiscoverResources (stubCollaborators None eventsCatalog 503 eventsOperations)
      (Some connectedSettings)
      = Ret (m, Some (Wrap (Errorf "Request failed with status code: %d and response: %s"
                              [ArgD 503; ArgS "{}"]) message), observed) ∧
    m = ∅ ∧ (∀ g r v, lookup3 m g r v = None) ∧
    message = (if decide ((fetchApiResources
                             (stubCollaborators None eventsCatalog 503 eventsOperations)
                             connectedSettings).2 = None)
               then fetchOperationsFailed else fetchApiResourcesFailed)).
Proof.
  split.
  - apply (C10_error_path
             (stubCollaborators (Some apiServerDown) eventsCatalog 200 eventsOperations)
             connectedSettings (Wrap apiServerDown "Error building kubeconfig")).
    left. vm_compute. reflexivity.
  - apply (C10_error_path
             (stubCollaborators None eventsCatalog 503 eventsOperations)
             connectedSettings
             (Errorf "Request failed with status code: %d and response: %s"
                [ArgD 503; ArgS "{}"])).
    right. split; [vm_compute; reflexivity|]. eexists. vm_compute. reflexivity.
Defined.

(** Without a failing fetch the same call returns the correlated table. *)
Example DiscoverResources_success :
  DiscoverResources (stubCollaborators None eventsCatalog 200
                       eventsOperations)
    (Some connectedSettings)
  = Ret (storeAction ∅ "events.k8s.io" "events" "read" (recordOf (dataAction eventsRead) true),
         None,
         [discoverResourcesApiServerCallDuration; discoverResourcesAzureCallDuration]).
Proof. vm_compute. reflexivity. Qed.

(** ** Further properties of the correlation engine *)

Lemma groupOf_total groupVersion : ∃ group, groupOf groupVersion = Ret group.
Proof.
  unfold groupOf. case_decide; [|by eexists].
  pose proof (Split_nonempty groupVersion slash).
  destruct (Split groupVersion slash) as [|h t]; [done|]. by exists h.
Qed.

Lemma forRange_ext {A S : Type} (f g : S → A → outcome S) l :
  (∀ s x, x ∈ l → f s x = g s x) → ∀ s, forRange f l s = forRange g l s.
Proof.
  induction l as [|x l IH]; intros Hfg s; simpl; [done|].
  rewrite (Hfg s x) by apply list_elem_of_here.
  destruct (g s x) as [s'|p]; simpl; [|done].
  apply IH. intros s0 y Hy. apply Hfg. by apply list_elem_of_further.
Qed.

(** Rounds that leave the state as it is can be left out of a loop. *)
Lemma forRange_skip {A S : Type} (body : S → A → outcome S) (keep : A → bool) l :
  (∀ s x, x ∈ l → keep x = false → body s x = Ret s) →
  ∀ s, forRange body (filter (λ x, keep x) l) s = forRange body l s.
Proof.
  induction l as [|x l IH]; intros Hskip s; [done|].
  assert (∀ s0, forRange body (filter (λ x, keep x) l) s0 = forRange body l s0) as IH'.
  { apply IH. intros s0 y Hy. apply Hskip. by apply list_elem_of_further. }
  rewrite filter_cons. destruct (keep x) eqn:Hk.
  - destruct (decide (Is_true true)) as [_|[]]; [|done]. simpl.
    destruct (body s x) as [s'|p]; simpl; [apply IH'|done].
  - destruct (decide (Is_true false)) as [[]|_]. simpl.
    rewrite (Hskip s x) by (done || apply list_elem_of_here). simpl. apply IH'.
Qed.

Lemma resourceBody_subresource operationsList clusterType group m apiResource :
  isSubresource apiResource = true →
  resourceBody operationsList clusterType group m apiResource = Ret m.
Proof. unfold isSubresource, resourceBody. by intros ->. Qed.

Lemma resListBody_dropSubresources operationsList clusterType m entry :
  resListBody operationsList clusterType m (option_map dropSubresources entry) =
  resListBody operationsList clusterType m entry.
Proof.
  destruct entry as [resList|]; [|done]. unfold resListBody. simpl.
  assert (∀ group m0,
    forRange (resourceBody operationsList clusterType group)
      (filter (λ res, negb (isSubresource res)) (APIResources resList)) m0 =
    forRange (resourceBody operationsList clusterType group) (APIResources resList) m0) as Hdrop.
  { intros group m0. apply forRange_skip. intros s x _ Hx.
    apply resourceBody_subresource. by apply negb_false_iff. }
  destruct (groupOf_total (GroupVersion resList)) as [group Hgroup]. rewrite Hgroup. simpl.
  rewrite Hdrop. case_decide as Hf; case_decide as Hl; try done.
  - rewrite <-Hdrop. apply length_zero_iff_nil in Hf. by rewrite Hf.
  - apply length_zero_iff_nil in Hl. by rewrite Hl.
Qed.

(** X1: catalog entries without resources contribute nothing: leaving all
    of them out gives the same outcome, table or panic. *)
Theorem empty_entries_contribute_nothing apiResourcesList operationsList clusterType :
  createOperationsMap (filter (λ entry, negb (emptyEntry entry)) apiResourcesList)
    operationsList clusterType =
  createOperationsMap apiResourcesList operationsList clusterType.
Proof.
  unfold createOperationsMap. apply forRange_skip.
  intros m entry _ Hentry. apply negb_false_iff in Hentry.
  destruct entry as [resList|]; [|done]. unfold resListBody. simpl.
  unfold emptyEntry in Hentry. destruct (APIResources resList); [|done].
  by rewrite decide_True.
Qed.

(** X2: subresource descriptors contribute nothing: the outcome is the same
    when every entry is stripped of the resources whose name contains a
    slash, also when an entry is left with no resource at all. *)
Theorem subresources_contribute_nothing
    (apiResourcesList : list (option APIResourceList)) operationsList clusterType :
  createOperationsMap (map (option_map dropSubresources) apiResourcesList)
    operationsList clusterType =
  createOperationsMap apiResourcesList operationsList clusterType.
Proof.
  unfold createOperationsMap. generalize NewOperationsMap.
  induction apiResourcesList as [|entry rest IH]; intros m; [done|].
  simpl. rewrite resListBody_dropSubresources.
  destruct (resListBody _ _ _ entry) as [m'|p]; simpl; [apply IH|done].
Qed.

(** X3: with no operation at all the table is empty; the call still panics
    on a nil catalog entry, and on nothing else. *)
Theorem no_operations_empty_table apiResourcesList clusterType :
  createOperationsMap apiResourcesList [] clusterType =
  if decide (Forall is_Some apiResourcesList) then Ret ∅ else Panic NilDereference.
Proof.
  unfold createOperationsMap, NewOperationsMap.
  assert (∀ resList, resListBody [] clusterType ∅ (Some resList) = Ret ∅) as Hbody.
  { intros resList. unfold resListBody. simpl. case_decide; [done|].
    destruct (groupOf_total (GroupVersion resList)) as [group ->]. simpl.
    assert (∀ m res, resourceBody [] clusterType group m res = Ret m) as Hres
      by (intros m res; unfold resourceBody; by destruct (Contains (APIResource_Name res) "/")).
    generalize (APIResources resList). intros l. induction l as [|res l IHl]; [done|].
    simpl. by rewrite Hres. }
  induction apiResourcesList as [|entry rest IH].
  - by rewrite decide_True by constructor.
  - simpl. destruct entry as [resList|].
    + rewrite Hbody. simpl. rewrite IH.
      destruct (decide (Forall is_Some rest)) as [Hall|Hnot].
      * by rewrite decide_True by (by constructor).
      * rewrite decide_False; [done|]. by intros [_ ?]%Forall_cons.
    + by destruct (decide (Forall is_Some (None :: rest))) as [[[? [=]] _]%Forall_cons|_].
Qed.

(** X4: storing a record and querying its triple gives the record back;
    every other triple answers as before, and no group or resource key is
    lost. *)
Theorem storeAction_round_trip (m : OperationsMap) g r v da :
  lookup3 (storeAction m g r v da) g r v = Some da ∧
  (∀ g' r' v', (g', r', v') ≠ (g, r, v) →
     lookup3 (storeAction m g r v da) g' r' v' = lookup3 m g' r' v') ∧
  (∀ g' byResource r', m !! g' = Some byResource → is_Some (byResource !! r') →
     ∃ byResource', storeAction m g r v da !! g' = Some byResource' ∧
                    is_Some (byResource' !! r')).
Proof.
  split; [|split].
  - rewrite lookup3_storeAction. by rewrite decide_True.
  - intros g' r' v' Hne. rewrite lookup3_storeAction.
    rewrite decide_False; [done|]. intros (->&->&->). done.
  - intros g' byResource r' Hg Hr. rewrite storeAction_insert.
    destruct (decide (g' = g)) as [->|Hne].
    + rewrite lookup_insert_eq. eexists. split; [done|]. rewrite Hg. simpl.
      destruct (decide (r' = r)) as [->|Hr'].
      * by rewrite lookup_insert_eq.
      * by rewrite lookup_insert_ne.
    + rewrite lookup_insert_ne by done. eauto.
Qed.

Lemma scan_names group resourceName actionId namespaced :
  ∀ ops ops' m, Operation_Name <$> ops = Operation_Name <$> ops' →
  forRange (operationBody group resourceName actionId namespaced) ops m =
  forRange (operationBody group resourceName actionId namespaced) ops' m.
Proof.
  induction ops as [|op ops IH]; intros [|op' ops'] m Hnames; try done.
  rewrite !fmap_cons in Hnames. injection Hnames as Hname Hrest. simpl.
  rewrite !operationBody_matchVerb. unfold recordOf. rewrite Hname.
  destruct (matchVerb _ _ _ _) as [ov|p]; simpl; [|done]. by apply IH.
Qed.

(** X5: the correlation reads nothing of an operation but its name: two
    operations lists with the same names, in the same order, give the same
    outcome, whatever their display texts and [isDataAction] flags. *)
Theorem correlation_reads_names_only apiResourcesList ops ops' clusterType :
  Operation_Name <$> ops = Operation_Name <$> ops' →
  createOperationsMap apiResourcesList ops clusterType =
  createOperationsMap apiResourcesList ops' clusterType.
Proof.
  intros Hnames. unfold createOperationsMap. apply forRange_ext.
  intros m entry _. unfold resListBody.
  destruct entry as [resList|]; simpl; [|done].
  case_decide; [done|]. destruct (groupOf _) as [group|]; simpl; [|done].
  apply forRange_ext. intros m' res _. unfold resourceBody.
  destruct (Contains _ "/"); [done|]. by apply scan_names.
Qed.

Lemma correlation_reads_names_only_witness :
  createOperationsMap eventsCatalog [dataAction eventsRead] ConnectedClusters =
  createOperationsMap eventsCatalog [unflagged eventsRead] ConnectedClusters.
Proof.
  apply (correlation_reads_names_only eventsCatalog
           [dataAction eventsRead] [unflagged eventsRead] ConnectedClusters).
  reflexivity.
Defined.

(** A property that one round establishes and all later rounds keep holds
    after the loop. *)
Lemma forRange_establish {A S : Type} (P : S → Prop) (body : S → A → outcome S) l x :
  x ∈ l →
  (∀ s s', body s x = Ret s' → P s') →
  (∀ s y s', y ∈ l → P s → body s y = Ret s' → P s') →
  ∀ s s', forRange body l s = Ret s' → P s'.
Proof.
  induction l as [|a l IH]; intros Hx Hest Hkeep s s' H.
  - by apply elem_of_nil in Hx.
  - simpl in H. destruct (body s a) as [s1|p] eqn:E; simpl in H; [|done].
    assert (∀ s0 y s0', y ∈ l → P s0 → body s0 y = Ret s0' → P s0') as Hkeep'
      by (intros s0 y s0' Hy; apply Hkeep; by apply list_elem_of_further).
    apply elem_of_cons in Hx as [->|Hx].
    + eapply (forRange_invariant P); [exact Hkeep'| |exact H]. by eapply Hest.
    + by eapply IH.
Qed.

(** A loop panics only where one of its rounds does. *)
Lemma forRange_Panic {A S : Type} (body : S → A → outcome S) l :
  ∀ s p, forRange body l s = Panic p → ∃ x s0, x ∈ l ∧ body s0 x = Panic p.
Proof.
  induction l as [|a l IH]; intros s p H; simpl in H; [done|].
  destruct (body s a) as [s1|q] eqn:E; simpl in H.
  - destruct (IH _ _ H) as (x&s0&Hx&Hp). exists x, s0. split; [|done].
    by apply list_elem_of_further.
  - injection H as ->. exists a, s. split; [apply list_elem_of_here|done].
Qed.

(** A scan only adds records or replaces them. *)
Lemma scan_monotone group resourceName actionId namespaced operationsList m0 m g r v :
  forRange (operationBody group resourceName actionId namespaced) operationsList m0 = Ret m →
  is_Some (lookup3 m0 g r v) → is_Some (lookup3 m g r v).
Proof.
  intros H Hm0. rewrite (scan_lookup _ _ _ _ _ _ _ H g r v).
  case_decide; [|done]. by destruct (last _).
Qed.

Lemma resourceBody_monotone operationsList clusterType group m0 apiResource m g r v :
  resourceBody operationsList clusterType group m0 apiResource = Ret m →
  is_Some (lookup3 m0 g r v) → is_Some (lookup3 m g r v).
Proof.
  unfold resourceBody. destruct (Contains _ "/"); [by intros [= <-]|].
  apply scan_monotone.
Qed.

Lemma resListBody_monotone operationsList clusterType m0 entry m g r v :
  resListBody operationsList clusterType m0 entry = Ret m →
  is_Some (lookup3 m0 g r v) → is_Some (lookup3 m g r v).
Proof.
  unfold resListBody. destruct entry as [resList|]; simpl; [|done].
  case_decide; [by intros [= <-]|].
  destruct (groupOf _) as [group|]; simpl; [|done].
  intros Hloop Hm0. revert Hloop.
  apply (forRange_invariant (λ m, is_Some (lookup3 m g r v))); [|done].
  intros s res s' _ Hs Hbody. by eapply resourceBody_monotone.
Qed.

(** X6: every match is filed: when the catalog has a top-level resource and
    an operation of the list maps to a triple of that resource, the returned
    table has a record at the triple (that of the last such operation). *)
Theorem every_match_is_filed apiResourcesList operationsList clusterType m
    resList apiResource group verb operation :
  createOperationsMap apiResourcesList operationsList clusterType = Ret m →
  Some resList ∈ apiResourcesList →
  apiResource ∈ APIResources resList →
  isSubresource apiResource = false →
  groupOf (GroupVersion resList) = Ret group →
  operation ∈ operationsList →
  mapsTo clusterType group (APIResource_Name apiResource) verb operation = true →
  ∃ da, lookup3 m group (APIResource_Name apiResource) verb = Some da ∧
        lastWins clusterType operationsList group (APIResource_Name apiResource) verb da.
Proof.
  intros Hm Hentry Hres Hsub Hgroup Hop Hmaps.
  set (r := APIResource_Name apiResource) in *.
  assert (is_Some (lookup3 m group r verb)) as [da Hda].
  { revert Hm. unfold createOperationsMap.
    apply (forRange_establish (λ m, is_Some (lookup3 m group r verb)) _ _ (Some resList));
      [done| |].
    - intros s s'. unfold resListBody. simpl.
      rewrite decide_False by (destruct (APIResources resList);
                                 [by apply elem_of_nil in Hres|done]).
      rewrite Hgroup. simpl.
      apply (forRange_establish (λ m, is_Some (lookup3 m group r verb)) _ _ apiResource);
        [done| |].
      + intros s0 s0'. unfold resourceBody. unfold isSubresource in Hsub. rewrite Hsub.
        intros Hscan. rewrite (scan_lookup _ _ _ _ _ _ _ Hscan group r verb).
        rewrite decide_True by done.
        destruct (last _) as [op|] eqn:Hlast; [done|].
        apply last_None in Hlast. exfalso.
        eapply filter_nil_not_elem_of; [exact Hlast| |exact Hop].
        by apply Is_true_true.
      + intros s0 y s0' _ Hs0 Hbody. by eapply resourceBody_monotone.
    - intros s y s' _ Hs Hbody. by eapply resListBody_monotone. }
  exists da. split; [done|]. by eapply createOperationsMap_provenance.
Qed.

Lemma every_match_is_filed_witness :
  ∃ da, lookup3 (storeAction ∅ "events.k8s.io" "events" "read"
                   (recordOf (dataAction eventsRead) true))
          "events.k8s.io" (APIResource_Name (namespacedResource "events")) "read" = Some da ∧
        lastWins ConnectedClusters [dataAction eventsRead] "events.k8s.io"
          (APIResource_Name (namespacedResource "events")) "read" da.
Proof.
  apply (every_match_is_filed eventsCatalog [dataAction eventsRead] ConnectedClusters
           (storeAction ∅ "events.k8s.io" "events" "read" (recordOf (dataAction eventsRead) true))
           {| GroupVersion := "events.k8s.io/v1";
              APIResources := [namespacedResource "events"] |}
           (namespacedResource "events") "events.k8s.io" "read" (dataAction eventsRead)).
  - vm_compute. reflexivity.
  - apply list_elem_of_further, list_elem_of_here.
  - apply list_elem_of_here.
  - vm_compute. reflexivity.
  - vm_compute. reflexivity.
  - apply list_elem_of_here.
  - vm_compute. reflexivity.
Defined.

Lemma createOperationsMap_described apiResourcesList operationsList clusterType m g r v da :
  createOperationsMap apiResourcesList operationsList clusterType = Ret m →
  lookup3 m g r v = Some da →
  describes apiResourcesList g r (IsNamespacedResource da).
Proof.
  intros Hm. revert g r v da. revert Hm. unfold createOperationsMap, NewOperationsMap.
  set (P := λ m : OperationsMap, ∀ g r v da, lookup3 m g r v = Some da →
              describes apiResourcesList g r (IsNamespacedResource da)).
  apply (forRange_invariant P).
  2: { intros g r v da H. by rewrite lookup3_empty in H. }
  intros m0 entry m1 Hentry Hm0. unfold resListBody.
  destruct entry as [resList|]; simpl; [|done].
  case_decide; [by intros [= <-]|].
  destruct (groupOf _) as [group|] eqn:Hgroup; simpl; [|done].
  revert m0 m1 Hm0. apply (forRange_invariant P).
  intros m0 res m1 Hres Hm0. unfold resourceBody.
  destruct (Contains _ "/") eqn:Hsub; [by intros [= <-]|].
  intros Hscan g r v da. rewrite (scan_lookup _ _ _ _ _ _ _ Hscan g r v).
  case_decide as Hgr; [|by apply Hm0].
  destruct Hgr as [-> ->].
  destruct (last _) as [op|]; [|by apply Hm0].
  intros [= <-]. by exists resList, res.
Qed.

(** X7: every record of the table is backed by a descriptor of the catalog:
    a top-level resource with the record's resource name, in an entry whose
    canonical group is the record's group, and with the record's namespaced
    flag. *)
Theorem records_are_described apiResourcesList operationsList clusterType m g r v da :
  createOperationsMap apiResourcesList operationsList clusterType = Ret m →
  lookup3 m g r v = Some da →
  describes apiResourcesList g r (IsNamespacedResource da).
Proof. apply createOperationsMap_described. Qed.

Lemma records_are_described_witness :
  describes eventsCatalog "events.k8s.io" "events"
    (IsNamespacedResource (recordOf (dataAction eventsRead) true)).
Proof.
  apply (records_are_described eventsCatalog [dataAction eventsRead] ConnectedClusters
           (storeAction ∅ "events.k8s.io" "events" "read" (recordOf (dataAction eventsRead) true))
           "events.k8s.io" "events" "read" (recordOf (dataAction eventsRead) true));
    vm_compute; reflexivity.
Defined.

(** The intermediate maps are created together with a record and never
    emptied. *)
Lemma createOperationsMap_no_empty_maps apiResourcesList operationsList clusterType m :
  createOperationsMap apiResourcesList operationsList clusterType = Ret m →
  ∀ g (byResource : ResourceAndVerbMap), m !! g = Some byResource →
    byResource ≠ ∅ ∧ ∀ r (byVerb : VerbAndActionsMap), byResource !! r = Some byVerb → byVerb ≠ ∅.
Proof.
  unfold createOperationsMap, NewOperationsMap.
  set (Q := λ m : OperationsMap, ∀ g (byResource : ResourceAndVerbMap),
         m !! g = Some byResource →
         byResource ≠ ∅ ∧
         ∀ r (byVerb : VerbAndActionsMap), byResource !! r = Some byVerb → byVerb ≠ ∅).
  apply (forRange_invariant Q).
  2: { intros g byResource H. by rewrite lookup_empty in H. }
  intros m0 entry m1 _ Hm0. unfold resListBody.
  destruct entry as [resList|]; simpl; [|done].
  case_decide; [by intros [= <-]|].
  destruct (groupOf _) as [group|]; simpl; [|done].
  revert m0 m1 Hm0. apply (forRange_invariant Q).
  intros m0 res m1 _ Hm0. unfold resourceBody.
  destruct (Contains _ "/"); [by intros [= <-]|].
  revert m0 m1 Hm0. apply (forRange_invariant Q).
  intros m0 op m1 _ Hm0. rewrite operationBody_matchVerb.
  destruct (matchVerb _ _ _ _) as [[verb|]|]; simpl; [|by intros [= <-]|done].
  intros [= <-] g byResource. rewrite storeAction_insert.
  destruct (decide (g = group)) as [->|Hg]; [|rewrite lookup_insert_ne by done; apply Hm0].
  rewrite lookup_insert_eq. intros [= <-]. split; [apply insert_non_empty|].
  intros r byVerb.
  destruct (decide (r = APIResource_Name res)) as [->|Hr].
  - rewrite lookup_insert_eq. intros [= <-]. apply insert_non_empty.
  - rewrite lookup_insert_ne by done.
    destruct (m0 !! group) as [old|] eqn:Hold; simpl; [|by rewrite lookup_empty].
    by apply (Hm0 group old Hold).
Qed.

(** X8: the table has no dangling key: under every group key there is a
    resource key and under every resource key a verb with its record; and
    every group key is the canonical group of a catalog entry, free of
    slashes. *)
Theorem no_dangling_keys apiResourcesList operationsList clusterType m g
    (byResource : ResourceAndVerbMap) :
  createOperationsMap apiResourcesList operationsList clusterType = Ret m →
  m !! g = Some byResource →
  (∃ r byVerb, byResource !! r = Some byVerb) ∧
  (∀ r (byVerb : VerbAndActionsMap), byResource !! r = Some byVerb →
     ∃ v da, byVerb !! v = Some da) ∧
  Count g slash = 0 ∧
  ∃ resList, Some resList ∈ apiResourcesList ∧ groupOf (GroupVersion resList) = Ret g.
Proof.
  intros Hm Hg.
  destruct (createOperationsMap_no_empty_maps _ _ _ _ Hm g byResource Hg) as [Hne Hverbs].
  apply map_choose in Hne as (r&byVerb&Hr).
  pose proof (Hverbs r byVerb Hr) as (v&da&Hv)%map_choose.
  assert (lookup3 m g r v = Some da) as Hda
    by (unfold lookup3; rewrite Hg; simpl; rewrite Hr; done).
  destruct (createOperationsMap_described _ _ _ _ _ _ _ _ Hm Hda)
    as (resList&res&Hin&_&Hgroup&_).
  split; [by eauto|]. split.
  - intros r' byVerb' Hr'. by apply map_choose, (Hverbs r').
  - split; [by eapply groupOf_Count|by eauto].
Qed.

Lemma no_dangling_keys_witness :
  (∃ r byVerb,
     ({["events" := {["read" := recordOf (dataAction eventsRead) true]}]}
        : ResourceAndVerbMap) !! r = Some byVerb) ∧
  (∀ r (byVerb : VerbAndActionsMap),
     ({["events" := {["read" := recordOf (dataAction eventsRead) true]}]}
        : ResourceAndVerbMap) !! r = Some byVerb →
     ∃ v da, byVerb !! v = Some da) ∧
  Count "events.k8s.io" slash = 0 ∧
  ∃ resList, Some resList ∈ eventsCatalog ∧
             groupOf (GroupVersion resList) = Ret "events.k8s.io".
Proof.
  apply (no_dangling_keys eventsCatalog [dataAction eventsRead] ConnectedClusters
           (storeAction ∅ "events.k8s.io" "events" "read" (recordOf (dataAction eventsRead) true)));
    vm_compute; reflexivity.
Defined.

Lemma matchVerb_Panic group resourceName actionId name p :
  matchVerb group resourceName actionId name = Panic p →
  p = IndexOutOfRange ∧ Contains name actionId = true ∧ length (Split name slash) < 3.
Proof.
  unfold matchVerb. destruct (Contains name actionId); [|done].
  destruct (Split name slash !! 2) as [seg2|] eqn:E2.
  - pose proof (lookup_lt_Some _ _ _ E2) as Hlen.
    apply index_Ret in E2. rewrite E2. simpl.
    destruct (if decide (group ≠ "v1") then _ else _); [done|].
    destruct (lookup_lt_is_Some_2 (Split name slash) (length (Split name slash) - 1)
                ltac:(lia)) as [verb E1].
    destruct (lookup_lt_is_Some_2 (Split name slash) (length (Split name slash) - 2)
                ltac:(lia)) as [prev Ep].
    assert (indexFromEnd (Split name slash) 1 = Ret verb) as ->
      by (apply indexFromEnd_Ret; split; [lia|done]).
    assert (indexFromEnd (Split name slash) 2 = Ret prev) as ->
      by (apply indexFromEnd_Ret; split; [lia|done]).
    simpl. by case_decide.
  - apply lookup_ge_None in E2 as Hlen. unfold index. rewrite E2. simpl.
    intros [= <-]. split; [done|]. split; [done|lia].
Qed.

(** X9: the only ways the correlation panics: a nil entry in the catalog
    (nil dereference), or an operation that contains the match prefix of a
    described resource and has fewer than three segments (index out of
    range). *)
Theorem panics_only_on apiResourcesList operationsList clusterType p :
  createOperationsMap apiResourcesList operationsList clusterType = Panic p →
  match p with
  | NilDereference => None ∈ apiResourcesList
  | IndexOutOfRange =>
      ∃ op g r namespaced,
        op ∈ operationsList ∧
        describes apiResourcesList g r namespaced ∧
        Contains (Operation_Name op) (matchPrefix clusterType g r) = true ∧
        length (Split (Operation_Name op) slash) < 3
  end.
Proof.
  unfold createOperationsMap. intros (entry&m0&Hentry&H)%forRange_Panic.
  unfold resListBody in H. destruct entry as [resList|]; simpl in H;
    [|by injection H as <-].
  case_decide; [done|].
  destruct (groupOf _) as [group|] eqn:Hgroup; simpl in H;
    [|by destruct (groupOf_total (GroupVersion resList)) as [? Ht]; rewrite Ht in Hgroup].
  apply forRange_Panic in H as (res&m1&Hres&H).
  unfold resourceBody in H. destruct (Contains _ "/") eqn:Hsub; [done|].
  apply forRange_Panic in H as (op&m2&Hop&H).
  rewrite operationBody_matchVerb in H.
  destruct (matchVerb _ _ _ _) as [ov|q] eqn:E; simpl in H; [done|].
  injection H as ->. apply matchVerb_Panic in E as (->&Hcontains&Hlen).
  exists op, group, (APIResource_Name res), (APIResource_Namespaced res).
  repeat split; try done. by exists resList, res.
Qed.

Lemma panics_only_on_witness :
  ∃ op g r namespaced,
    op ∈ [dataAction "aks/pods"] ∧
    describes [coreGroup [namespacedResource "pods"]] g r namespaced ∧
    Contains (Operation_Name op) (matchPrefix "aks" g r) = true ∧
    length (Split (Operation_Name op) slash) < 3.
Proof.
  apply (panics_only_on [coreGroup [namespacedResource "pods"]] [dataAction "aks/pods"]
           "aks" IndexOutOfRange).
  vm_compute. reflexivity.
Defined.

Lemma Split_head s h t :
  Split s slash = h :: t →
  s = h +:+ match t with [] => "" | _ :: _ => String slash (GoStrings.Join t "/") end.
Proof.
  intros E. rewrite <-(Join_Split s) at 1. rewrite E.
  destruct t as [|h' t]; [|reflexivity].
  clear E. induction h as [|c h IH]; [reflexivity|].
  change (String c h = String c (h +:+ "")). by f_equal.
Qed.

(** X10: the canonical group of a group-version string: the call never
    panics; the label has no slash; the empty string gives ["v1"]; any other
    string starts with the label, followed by nothing or by a slash. *)
Theorem groupOf_label groupVersion :
  ∃ group,
    groupOf groupVersion = Ret group ∧
    Count group slash = 0 ∧
    (groupVersion = "" → group = "v1") ∧
    (groupVersion ≠ "" →
     ∃ rest, groupVersion = group +:+ rest ∧ (rest = "" ∨ ∃ tail, rest = String slash tail)).
Proof.
  destruct (groupOf_total groupVersion) as [group Hgroup].
  exists group. split; [done|]. split; [by eapply groupOf_Count|].
  unfold groupOf in Hgroup. case_decide as Hgv.
  - split; [by intros ->; destruct Hgv|]. intros _.
    apply index_Ret in Hgroup.
    destruct (Split groupVersion slash) as [|h t] eqn:E; [done|].
    injection Hgroup as ->. eexists. split; [by apply Split_head|].
    destruct t; eauto.
  - injection Hgroup as <-. split; [done|]. intros Hne.
    assert (groupVersion = "v1") as -> by (by destruct (decide (groupVersion = "v1")); [|tauto]).
    exists "". by split; [|left].
Qed.

(** X11: for a clean cluster type and plain names the match prefix is the
    cluster type, the group unless it is the core group, and the resource
    name, separated by single slashes. *)
Theorem matchPrefix_plain clusterType group resourceName :
  cleanPath clusterType = true →
  group = "v1" ∨ (plainElem group = true ∧ Count group slash = 0) →
  plainElem resourceName = true → Count resourceName slash = 0 →
  matchPrefix clusterType group resourceName =
  if decide (group = "v1")
  then clusterType +:+ "/" +:+ resourceName
  else clusterType +:+ "/" +:+ group +:+ "/" +:+ resourceName.
Proof.
  intros Hct Hg Hr Hrc. unfold matchPrefix.
  destruct (decide (group = "v1")) as [->|Hcore].
  - rewrite decide_False by (by intros ?). by apply Join_cleanPath.
  - rewrite decide_True by done. destruct Hg as [->|[Hg Hgc]]; [done|].
    rewrite (Join_cleanPath clusterType group) by done.
    rewrite Join_cleanPath by (try done; by apply cleanPath_extend).
    by rewrite !append_assoc.
Qed.

Lemma matchPrefix_plain_witness :
  matchPrefix ConnectedClusters "apps" "deployments" =
  if decide ("apps" = "v1")
  then ConnectedClusters +:+ "/" +:+ "deployments"
  else ConnectedClusters +:+ "/" +:+ "apps" +:+ "/" +:+ "deployments".
Proof.
  apply (matchPrefix_plain ConnectedClusters "apps" "deployments");
    first [reflexivity | right; split; reflexivity].
Defined.

(** ** Further properties of the fetch phases, the orchestration and the settings *)

Lemma filterDataActions_from clusterType value : ∀ acc,
  forRange (keepDataAction clusterType) value acc =
  if forallb flagged value
  then Ret (acc ++ filter (λ op, keptByFetch clusterType op) value)
  else Panic NilDereference.
Proof.
  induction value as [|op value IH]; intros acc; simpl.
  - by rewrite app_nil_r.
  - destruct (Operation_IsDataAction op) as [flag|] eqn:Ef.
    + assert (flagged op = true) as -> by (unfold flagged; by rewrite Ef).
      assert (keepDataAction clusterType acc op =
              Ret (if keptByFetch clusterType op then acc ++ [op] else acc)) as ->.
      { unfold keepDataAction, keptByFetch. rewrite Ef. simpl.
        by destruct (flag && _). }
      simpl. rewrite IH, filter_cons.
      destruct (forallb flagged value); [|done].
      destruct (keptByFetch clusterType op).
      * destruct (decide (Is_true true)) as [_|[]]; [|done]. by rewrite <-app_assoc.
      * by destruct (decide (Is_true false)) as [[]|_].
    + assert (flagged op = false) as -> by (unfold flagged; by rewrite Ef).
      assert (keepDataAction clusterType acc op = Panic NilDereference) as ->
        by (unfold keepDataAction; by rewrite Ef).
      done.
Qed.

(** X12: the filter that ends the data-action fetch: when every record
    carries a flag it returns, in the order of the response, exactly the
    records whose flag is true and whose name contains the cluster type;
    otherwise it panics. *)
Theorem filterDataActions_spec clusterType value :
  filterDataActions clusterType value =
  if forallb flagged value
  then Ret (filter (λ op, keptByFetch clusterType op) value)
  else Panic NilDereference.
Proof. unfold filterDataActions. by rewrite filterDataActions_from. Qed.

Lemma fetchDataActionsList_shape W settings l err :
  fetchDataActionsList W settings = Ret (l, err) →
  match err with
  | Some _ => l = []
  | None =>
      ∃ data decoded,
        json_Unmarshal W data = (decoded, None) ∧
        l = filter (λ op, keptByFetch (clusterType settings) op) (Value decoded)
  end.
Proof.
  unfold fetchDataActionsList.
  destruct (http_NewRequest W "GET" _) as [req [e|]]; [by intros ?; simplify_eq|].
  destruct (if decide (clusterType settings = ConnectedClusters) then _ else _)
    as [token [e|]]; [by intros ?; simplify_eq|].
  destruct (DefaultHTTPClient_Do W _) as [resp [e|]]; [by intros ?; simplify_eq|].
  destruct (Body resp) as [data [e|]]; [by intros ?; simplify_eq|].
  case_decide; [by intros ?; simplify_eq|].
  destruct (json_Unmarshal W data) as [decoded [e|]] eqn:Hdecoded;
    [by intros ?; simplify_eq|].
  unfold filterDataActions. rewrite filterDataActions_from.
  destruct (forallb flagged _); simpl; [|done].
  intros ?; simplify_eq. eauto.
Qed.



(** X14: the fetch does not paginate: what the decoder reports as next link
    has no influence on the outcome. *)
Theorem fetchDataActionsList_ignores_nextLink W unmarshal settings :
  (∀ data, Value (unmarshal data).1 = Value (json_Unmarshal W data).1 ∧
           (unmarshal data).2 = (json_Unmarshal W data).2) →
  fetchDataActionsList (withUnmarshal W unmarshal) settings = fetchDataActionsList W settings.
Proof.
  intros Hsame. unfold fetchDataActionsList, withUnmarshal. simpl.
  destruct (http_NewRequest W "GET" _) as [req [e|]]; [done|].
  destruct (if decide (clusterType settings = ConnectedClusters) then _ else _)
    as [token [e|]]; [done|].
  destruct (DefaultHTTPClient_Do W _) as [resp [e|]]; [done|].
  destruct (Body resp) as [data [e|]]; [done|].
  case_decide; [done|].
  destruct (Hsame data) as [Hv He].
  destruct (unmarshal data) as [decoded' err']. destruct (json_Unmarshal W data) as [decoded err].
  simpl in Hv, He. subst err'. destruct err; [done|]. by rewrite Hv.
Qed.

Lemma fetchDataActionsList_ignores_nextLink_witness :
  fetchDataActionsList
    (withUnmarshal (stubCollaborators None [] 200 eventsOperations)
       (pagedUnmarshal (stubCollaborators None [] 200 eventsOperations)))
    connectedSettings =
  fetchDataActionsList (stubCollaborators None [] 200 eventsOperations) connectedSettings.
Proof.
  apply (fetchDataActionsList_ignores_nextLink
           (stubCollaborators None [] 200 eventsOperations)
           (pagedUnmarshal (stubCollaborators None [] 200 eventsOperations))
           connectedSettings).
  intros data. split; reflexivity.
Defined.

(** X15: the HTTP client is only ever handed a request that carries the
    acquired token as bearer authorization and the JSON content type: a
    client that differs on other requests gives the same outcome. *)
Theorem client_sees_bearer_requests_only W client settings :
  (∀ req token,
     acquireToken W settings = (token, None) →
     Request_Header req !! "Authorization" = Some ("Bearer " +:+ token) →
     Request_Header req !! "Content-Type" = Some "application/json" →
     client req = DefaultHTTPClient_Do W req) →
  fetchDataActionsList (withClient W client) settings = fetchDataActionsList W settings.
Proof.
  intros Hclient. unfold fetchDataActionsList, withClient. simpl.
  destruct (http_NewRequest W "GET" _) as [req [e|]]; [done|].
  unfold acquireToken in Hclient.
  destruct (if decide (clusterType settings = ConnectedClusters) then _ else _)
    as [token [e|]]; [done|].
  rewrite (Hclient _ token); [done|done|..].
  - unfold Header_Set. simpl. by rewrite lookup_insert_eq.
  - unfold Header_Set. simpl.
    rewrite lookup_insert_ne by done. rewrite lookup_insert_ne by done.
    by rewrite lookup_insert_eq.
Qed.

Lemma client_sees_bearer_requests_only_witness :
  fetchDataActionsList
    (withClient (stubCollaborators None [] 200 eventsOperations)
       (guardedClient (stubCollaborators None [] 200 eventsOperations)))
    connectedSettings =
  fetchDataActionsList (stubCollaborators None [] 200 eventsOperations) connectedSettings.
Proof.
  apply (client_sees_bearer_requests_only
           (stubCollaborators None [] 200 eventsOperations)
           (guardedClient (stubCollaborators None [] 200 eventsOperations))
           connectedSettings).
  intros req token _ Hauth _. unfold guardedClient. rewrite Hauth.
  by rewrite decide_True by by eexists.
Defined.

(** X16: what the catalog fetch hands back: with an error the list is
    empty, also when the discovery call came back with a partial list beside
    its error; without one the list is what the discovery call returned for
    the client set built from the configuration, which is read from the
    kubeconfig file when a path is set and from the cluster otherwise. *)
Theorem fetchApiResources_result W settings :
  match (fetchApiResources W settings).2 with
  | Some _ => (fetchApiResources W settings).1 = []
  | None =>
      ∃ cfg kubeclientset,
        (if decide (kubeconfigFilePath settings ≠ "")
         then clientcmd_BuildConfigFromFlags W "" (kubeconfigFilePath settings)
         else rest_InClusterConfig W) = (cfg, None) ∧
        kubernetes_NewForConfig W cfg = (kubeclientset, None) ∧
        ServerPreferredResources W kubeclientset = ((fetchApiResources W settings).1, None)
  end.
Proof.
  unfold fetchApiResources.
  destruct (if decide (kubeconfigFilePath settings ≠ "") then _ else _) as [cfg [e|]];
    [done|].
  destruct (kubernetes_NewForConfig W cfg) as [kubeclientset [e|]] eqn:Hclient; [done|].
  destruct (ServerPreferredResources W kubeclientset) as [catalog [e|]] eqn:Hcatalog;
    [done|].
  simpl. eauto.
Qed.

(** X17: end to end: a table that [DiscoverResources] returns without error
    is the correlation of the fetched catalog with the fetched operations;
    every record in it is described by the catalog and carries the name of a
    fetched operation, one that the response flagged as data action and
    that is named after the cluster type. *)
Theorem DiscoverResources_records W settings m observed :
  DiscoverResources W (Some settings) = Ret (m, None, observed) →
  ∃ operationsList,
    (fetchApiResources W settings).2 = None ∧
    fetchDataActionsList W settings = Ret (operationsList, None) ∧
    createOperationsMap (fetchApiResources W settings).1 operationsList
      (clusterType settings) = Ret m ∧
    ∀ g r v da, lookup3 m g r v = Some da →
      describes (fetchApiResources W settings).1 g r (IsNamespacedResource da) ∧
      ∃ op, op ∈ operationsList ∧
            Operation_IsDataAction op = Some true ∧
            Contains (Operation_Name op) (clusterType settings) = true ∧
            Id (ActionInfo da) = Operation_Name op.
Proof.
  unfold DiscoverResources. simpl.
  destruct (fetchApiResources W settings) as [catalog [e|]]; simpl;
    [by intros ?; simplify_eq|].
  destruct (fetchDataActionsList W settings) as [[operationsList [e|]]|p] eqn:Hfetch;
    simpl; [by intros ?; simplify_eq| |done].
  destruct (createOperationsMap catalog operationsList (clusterType settings))
    as [table|p] eqn:Htable; simpl; [|done].
  intros ?; simplify_eq. exists operationsList. repeat split; try done.
  - by eapply createOperationsMap_described.
  - destruct (createOperationsMap_provenance _ _ _ _ Htable _ _ _ _ H)
      as (pre&op&post&Hsplit&_&Hid&_).
    assert (op ∈ operationsList) as Hop
      by (rewrite Hsplit; apply elem_of_app; right; apply list_elem_of_here).
    exists op. split; [done|].
    apply fetchDataActionsList_shape in Hfetch as (data&decoded&_&Hfilter).
    rewrite Hfilter in Hop. apply list_elem_of_filter in Hop as [Hkept _].
    apply Is_true_true in Hkept. unfold keptByFetch in Hkept.
    destruct (Operation_IsDataAction op) as [[]|]; simpl in Hkept; done.
Qed.

Lemma DiscoverResources_records_witness :
  ∃ operationsList,
    (fetchApiResources (stubCollaborators None eventsCatalog 200 eventsOperations)
       connectedSettings).2 = None ∧
    fetchDataActionsList (stubCollaborators None eventsCatalog 200 eventsOperations)
      connectedSettings = Ret (operationsList, None) ∧
    createOperationsMap
      (fetchApiResources (stubCollaborators None eventsCatalog 200 eventsOperations)
         connectedSettings).1 operationsList (clusterType connectedSettings)
      = Ret (storeAction ∅ "events.k8s.io" "events" "read"
               (recordOf (dataAction eventsRead) true)) ∧
    ∀ g r v da,
      lookup3 (storeAction ∅ "events.k8s.io" "events" "read"
                 (recordOf (dataAction eventsRead) true)) g r v = Some da →
      describes
        (fetchApiResources (stubCollaborators None eventsCatalog 200 eventsOperations)
           connectedSettings).1 g r (IsNamespacedResource da) ∧
      ∃ op, op ∈ operationsList ∧
            Operation_IsDataAction op = Some true ∧
            Contains (Operation_Name op) (clusterType connectedSettings) = true ∧
            Id (ActionInfo da) = Operation_Name op.
Proof.
  apply (DiscoverResources_records
           (stubCollaborators None eventsCatalog 200 eventsOperations) connectedSettings
           (storeAction ∅ "events.k8s.io" "events" "read"
              (recordOf (dataAction eventsRead) true))
           [discoverResourcesApiServerCallDuration; discoverResourcesAzureCallDuration]).
  vm_compute. reflexivity.
Defined.

(** X18: what [DiscoverResources] observes and returns: the apiserver
    histogram is observed exactly when the catalog fetch succeeded, the
    Azure histogram exactly when no error is returned, the total-duration
    histogram never; and a returned error comes with the empty table. *)
Theorem DiscoverResources_observations W settings m err observed :
  DiscoverResources W (Some settings) = Ret (m, err, observed) →
  (DiscoverResourcesTotalDuration ∉ observed) ∧
  (discoverResourcesApiServerCallDuration ∈ observed ↔
   (fetchApiResources W settings).2 = None) ∧
  (discoverResourcesAzureCallDuration ∈ observed ↔ err = None) ∧
  (err ≠ None → m = ∅).
Proof.
  unfold DiscoverResources. simpl.
  destruct (fetchApiResources W settings) as [catalog [e|]]; simpl.
  { intros ?; simplify_eq. repeat split; try done; try by intros ?%elem_of_nil. }
  destruct (fetchDataActionsList W settings) as [[operationsList [e|]]|p]; simpl; [| |done].
  { intros ?; simplify_eq. repeat split; try done.
    - by intros [[=]|?%elem_of_nil]%elem_of_cons.
    - intros _. apply list_elem_of_here.
    - by intros [[=]|?%elem_of_nil]%elem_of_cons. }
  destruct (createOperationsMap _ _ _) as [table|p]; simpl; [|done].
  intros ?; simplify_eq. repeat split; try done.
  - by intros [[=]|[[=]|?%elem_of_nil]%elem_of_cons]%elem_of_cons.
  - intros _. apply list_elem_of_here.
  - intros _. apply list_elem_of_further, list_elem_of_here.
Qed.

Lemma DiscoverResources_observations_witness :
  (DiscoverResourcesTotalDuration ∉ [discoverResourcesApiServerCallDuration]) ∧
  (discoverResourcesApiServerCallDuration ∈ [discoverResourcesApiServerCallDuration] ↔
   (fetchApiResources (stubCollaborators None eventsCatalog 503 eventsOperations)
      connectedSettings).2 = None) ∧
  (discoverResourcesAzureCallDuration ∈ [discoverResourcesApiServerCallDuration] ↔
   Some (Wrap (Errorf "Request failed with status code: %d and response: %s"
                 [ArgD 503; ArgS "{}"]) fetchOperationsFailed) = None) ∧
  (Some (Wrap (Errorf "Request failed with status code: %d and response: %s"
                 [ArgD 503; ArgS "{}"]) fetchOperationsFailed) ≠ None →
   (∅ : OperationsMap) = ∅).
Proof.
  apply (DiscoverResources_observations
           (stubCollaborators None eventsCatalog 503 eventsOperations) connectedSettings).
  vm_compute. reflexivity.
Defined.

(** X19: the settings constructor returns either a settings object or an
    error, never both and never neither; it succeeds exactly for a
    supported cluster type with an environment name that is empty or
    resolves; and the object carries the login URL, the kubeconfig path and
    the identity arguments unchanged. *)
Theorem NewDiscoverResourcesSettings_result (W : Collaborators)
    (clusterType' environment' loginURL kubeconfigFilePath' tenantID' clientID' clientSecret' : string) :
  let result := NewDiscoverResourcesSettings W clusterType' environment' loginURL
                  kubeconfigFilePath' tenantID' clientID' clientSecret' in
  (is_Some result.1 ↔ result.2 = None) ∧
  (result.2 = None ↔
   supported clusterType' ∧
   (environment' = "" ∨ (azure_EnvironmentFromName W environment').2 = None)) ∧
  (∀ settings, result.1 = Some settings →
     aksLoginURL settings = loginURL ∧
     kubeconfigFilePath settings = kubeconfigFilePath' ∧
     tenantID settings = tenantID' ∧
     clientID settings = clientID' ∧
     clientSecret settings = clientSecret').
Proof.
  unfold NewDiscoverResourcesSettings, supported.
  assert (∀ (e : error) (P : Prop), ¬ P →
            (is_Some (None : option DiscoverResourcesSettings) ↔ Some e = None) ∧
            (Some e = None ↔ P) ∧
            ∀ s0 : DiscoverResourcesSettings, None = Some s0 →
                  aksLoginURL s0 = loginURL ∧
                  kubeconfigFilePath s0 = kubeconfigFilePath' ∧
                  tenantID s0 = tenantID' ∧
                  clientID s0 = clientID' ∧
                  clientSecret s0 = clientSecret') as Hfail.
  { intros e P HP. split; [split; [by intros [? ?]|done]|]. by split. }
  destruct (decide (environment' ≠ "")) as [Henv|Henv].
  - destruct (azure_EnvironmentFromName W environment') as [env [err|]]; simpl.
    + apply Hfail. by intros [_ [?|?]].
    + destruct (decide (clusterType' = ConnectedClusters)) as [->|Hc]; simpl.
      { split; [split; [done|by eexists]|].
      split; [split; [intros _; split; eauto|done]|]. by intros ? [= <-]. }
      destruct (decide (clusterType' = ManagedClusters)) as [->|Hm]; simpl.
      { split; [split; [done|by eexists]|].
      split; [split; [intros _; split; eauto|done]|]. by intros ? [= <-]. }
      destruct (decide (clusterType' = Fleets)) as [->|Hf]; simpl.
      { split; [split; [done|by eexists]|].
      split; [split; [intros _; split; eauto|done]|]. by intros ? [= <-]. }
      apply Hfail. intros [[?|[?|?]] _]; done.
  - apply dec_stable in Henv as ->. simpl.
    destruct (decide (clusterType' = ConnectedClusters)) as [->|Hc]; simpl.
    { split; [split; [done|by eexists]|].
      split; [split; [intros _; split; eauto|done]|]. by intros ? [= <-]. }
    destruct (decide (clusterType' = ManagedClusters)) as [->|Hm]; simpl.
    { split; [split; [done|by eexists]|].
      split; [split; [intros _; split; eauto|done]|]. by intros ? [= <-]. }
    destruct (decide (clusterType' = Fleets)) as [->|Hf]; simpl.
    { split; [split; [done|by eexists]|].
      split; [split; [intros _; split; eauto|done]|]. by intros ? [= <-]. }
    apply Hfail. intros [[?|[?|?]] _]; done.
Qed.

(** X20: [ConvertIntToString] gives a decimal text that reads back as the
    number; so different numbers give different texts. *)
Theorem ConvertIntToString_reads_back (number : Z) :
  option_map Z.of_int (DecimalString.NilEmpty.int_of_string (ConvertIntToString number))
    = Some number ∧
  ∀ other, ConvertIntToString other = ConvertIntToString number → other = number.
Proof.
  assert (∀ n, option_map Z.of_int
                 (DecimalString.NilEmpty.int_of_string (ConvertIntToString n)) = Some n) as Hback.
  { intros n. unfold ConvertIntToString.
    rewrite DecimalString.NilEmpty.isi. simpl. by rewrite DecimalZ.of_to. }
  split; [apply Hback|].
  intros other Heq. pose proof (Hback other) as Ho. rewrite Heq, Hback in Ho. congruence.
Qed.
